(** * Laravel-style resource route resolver: model and verified properties

    Shallow embedding of [src/laravelResourceRoute.ts].

    Conventions of the model.
    - A JavaScript string is modelled by the [string] of its UTF-8 bytes, so
      strings are well formed: a string with a lone surrogate, on which
      [encodeURIComponent] throws, is not among them.  All
      the string operations of the source ([split], [endsWith], [slice],
      [startsWith], the three regular expressions) look only at ASCII
      characters, and percent-encoding works on the UTF-8 bytes, so each of
      them is a function on bytes.
    - The parameter object [params : Record<string, unknown>] is modelled by
      its own enumerable properties, in the order in which [Object.entries]
      lists them, together with the properties it inherits; [k in params]
      and [params[k]] see both, [Object.entries] only the former.  A plain
      object inherits the properties of [Object.prototype].
    - The [Set<string>] of used keys is a [gset string], threaded through the
      computation by a small state-and-error monad; [throw new Error(...)] is
      the error result. *)

From Stdlib Require Import Ascii ZArith Lia.
From Stdlib Require String DecimalString.
From stdpp Require Import base strings gmap list.
From Equations Require Import Equations.

Set Warnings "-register-all".

Local Open Scope char_scope.
Local Open Scope string_scope.
Local Open Scope stdpp_scope.

(** ** Strings *)

Module Str.

(** [s.startsWith(p)] *)
Fixpoint startsWith (s p : string) {struct p} : bool :=
  match p with
  | "" => true
  | String b p' =>
      match s with
      | String a s' => Ascii.eqb a b && startsWith s' p'
      | "" => false
      end
  end.

(** [s.endsWith(p)] *)
Definition endsWith (s p : string) : bool :=
  (String.length p <=? String.length s)%nat &&
  String.eqb (String.substring (String.length s - String.length p)
                               (String.length p) s) p.

(** [s.slice(0, -n)] for [n > 0]: the end index is [max (length - n) 0]. *)
Definition sliceEnd (s : string) (n : nat) : string :=
  String.substring 0 (String.length s - n) s.

(** Leading and trailing runs of one character. *)
Fixpoint dropLeading (c : ascii) (s : string) : string :=
  match s with
  | String a r => if Ascii.eqb a c then dropLeading c r else s
  | "" => ""
  end.

Fixpoint dropTrailing (c : ascii) (s : string) : string :=
  match s with
  | String a r =>
      match dropTrailing c r with
      | "" => if Ascii.eqb a c then "" else String a ""
      | r' => String a r'
      end
  | "" => ""
  end.

(** [parts.join(sep)] *)
Definition join (sep : string) (parts : list string) : string :=
  String.concat sep parts.

(** [s.split(".")]: never the empty list; the empty string gives [[""]]. *)
Fixpoint split (c : ascii) (s : string) : list string :=
  match s with
  | "" => [""]
  | String a r =>
      if Ascii.eqb a c then "" :: split c r
      else match split c r with
           | h :: t => String a h :: t
           | [] => [String a ""]
           end
  end.

(** The longest prefix of characters satisfying [p], and what follows it. *)
Fixpoint span (p : ascii -> bool) (s : string) : string * string :=
  match s with
  | String a r =>
      if p a then let '(w, r') := span p r in (String a w, r') else ("", s)
  | "" => ("", "")
  end.

Definition isEmpty (s : string) : bool :=
  match s with "" => true | _ => false end.

(** [s] contains the character [c]. *)
Fixpoint contains (c : ascii) (s : string) : bool :=
  match s with
  | String a r => Ascii.eqb a c || contains c r
  | "" => false
  end.

(** [t] occurs in [s] as a contiguous substring. *)
Fixpoint includes (s t : string) : bool :=
  startsWith s t ||
  match s with
  | String _ r => includes r t
  | "" => false
  end.

End Str.

(** ** Character classes and percent-encoding *)

Definition in_range (lo hi : N) (c : ascii) : bool :=
  (N.leb lo (N_of_ascii c) && N.leb (N_of_ascii c) hi)%N.

Definition is_alnum (c : ascii) : bool :=
  in_range 48 57 c || in_range 65 90 c || in_range 97 122 c.

(** The regular-expression class [\w] (no unicode flag): [[A-Za-z0-9_]]. *)
Definition is_word (c : ascii) : bool := is_alnum c || Ascii.eqb c "_".

Definition hex_digit (n : N) : ascii :=
  if (n <? 10)%N then ascii_of_N (48 + n) else ascii_of_N (55 + n).

(** [%XX] with upper-case hexadecimal digits. *)
Definition percent (c : ascii) : string :=
  String "%" (String (hex_digit (N_of_ascii c / 16))
             (String (hex_digit (N_of_ascii c mod 16)) "")).

Fixpoint encode_with (enc : ascii -> string) (s : string) : string :=
  match s with
  | String a r => enc a +:+ encode_with enc r
  | "" => ""
  end.

(** Characters that [encodeURIComponent] leaves alone:
    [A-Z a-z 0-9 - _ . ! ~ * ' ( )]. *)
Definition uri_unreserved (c : ascii) : bool :=
  is_alnum c ||
  existsb (Ascii.eqb c) ["-"; "_"; "."; "!"; "~"; "*"; "'"; "("; ")"]%char.

Definition encodeURIComponent (s : string) : string :=
  encode_with (fun c => if uri_unreserved c then String c "" else percent c) s.

(** The serializer of [URLSearchParams]: [application/x-www-form-urlencoded]
    keeps [A-Z a-z 0-9 * - . _], writes a space as [+] and percent-encodes
    every other byte. *)
Definition form_unreserved (c : ascii) : bool :=
  is_alnum c || existsb (Ascii.eqb c) ["*"; "-"; "."; "_"]%char.

Definition formEncode (s : string) : string :=
  encode_with (fun c => if form_unreserved c then String c ""
                        else if Ascii.eqb c " " then "+" else percent c) s.

(** ** Values of parameters *)

(** [Number.isSafeInteger(n)] for an integer [n]. *)
Definition isSafeInteger (n : Z) : bool := (Z.abs n <=? 9007199254740991)%Z.

(** The values a parameter can hold, as far as the code tells them apart: it
    compares a value with [undefined] and [null], asks whether it is an
    array, and converts it with [String].  [VNumber] is a number whose value
    is a safe integer, which [String] prints in plain decimal.  [VOther] is
    any other value that is not an array (a function, an object, a number
    with a fraction or beyond the safe integers), given by the text [String]
    returns for it.  Values whose conversion to a string throws are not
    modelled, and arrays are dense. *)
Inductive Value : Type :=
| VUndefined
| VNull
| VBool (b : bool)
| VNumber (n : Z) (safe : isSafeInteger n = true)
| VStr (s : string)
| VArr (items : list Value)
| VOther (text : string).

(** The number with the safe integer value [n]. *)
Abbreviation VNum n := (VNumber n eq_refl).

Definition decimal (n : Z) : string :=
  DecimalString.NilZero.string_of_int (Z.to_int n).

(** [String(v)].  An array prints as its elements joined by commas, where
    [null] and [undefined] elements print as nothing. *)
Fixpoint toStr (v : Value) : string :=
  match v with
  | VUndefined => "undefined"
  | VNull => "null"
  | VBool true => "true"
  | VBool false => "false"
  | VNumber n _ => decimal n
  | VStr s => s
  | VArr items =>
      Str.join ","
        (List.map (fun x => match x with
                            | VUndefined | VNull => ""
                            | _ => toStr x
                            end) items)
  | VOther text => text
  end.

(** [v !== undefined && v !== null] *)
Definition notNullish (v : Value) : bool :=
  match v with VUndefined | VNull => false | _ => true end.

(** The parameter object.  [ownEntries] are its own enumerable properties,
    in the order in which [Object.entries] lists them.  [hiddenProps] are
    the properties that [in] and [params[k]] also reach but [Object.entries]
    does not list: own properties that are not enumerable and those of the
    prototype chain, nearest first. *)
Record Params : Type := {
  ownEntries : list (string * Value);
  hiddenProps : list (string * Value)
}.

(** The value of the first property named [k] in a list of properties. *)
Fixpoint lookupProp (k : string) (props : list (string * Value))
  : option Value :=
  match props with
  | (k', v) :: rest => if String.eqb k' k then Some v else lookupProp k rest
  | [] => None
  end.

(** [k in params]: own and inherited properties alike. *)
Definition hasKey (k : string) (params : Params) : bool :=
  existsb (fun e => String.eqb e.1 k) (ownEntries params) ||
  existsb (fun e => String.eqb e.1 k) (hiddenProps params).

(** [params[k]]: the own property, else the inherited one, else
    [undefined]. *)
Definition getParam (k : string) (params : Params) : Value :=
  match lookupProp k (ownEntries params) with
  | Some v => v
  | None => default VUndefined (lookupProp k (hiddenProps params))
  end.

(** A built-in function, by the text [String] returns for it (as V8 prints
    native functions). *)
Definition nativeFunction (name : string) : Value :=
  VOther ("function " +:+ name +:+ "() { [native code] }").

(** The properties of [Object.prototype], which every object written as a
    literal or produced by [JSON.parse] inherits.  [__proto__] reads as the
    prototype itself, which prints as an object. *)
Definition objectPrototype : list (string * Value) :=
  [("constructor", nativeFunction "Object");
   ("__defineGetter__", nativeFunction "__defineGetter__");
   ("__defineSetter__", nativeFunction "__defineSetter__");
   ("hasOwnProperty", nativeFunction "hasOwnProperty");
   ("__lookupGetter__", nativeFunction "__lookupGetter__");
   ("__lookupSetter__", nativeFunction "__lookupSetter__");
   ("isPrototypeOf", nativeFunction "isPrototypeOf");
   ("propertyIsEnumerable", nativeFunction "propertyIsEnumerable");
   ("toString", nativeFunction "toString");
   ("valueOf", nativeFunction "valueOf");
   ("__proto__", VOther "[object Object]");
   ("toLocaleString", nativeFunction "toLocaleString")].

(** The plain object with the given own properties: [{ k1: v1, ... }]. *)
Definition objectLiteral (entries : list (string * Value)) : Params :=
  {| ownEntries := entries; hiddenProps := objectPrototype |}.

(** [params = {}], the default of a call without parameters. *)
Definition noParams : Params := objectLiteral [].

(** ** Actions and methods *)

Inductive Action : Type :=
| Index | Create | Store | Show | Edit | Update | Destroy.

Definition actionName (a : Action) : string :=
  match a with
  | Index => "index" | Create => "create" | Store => "store" | Show => "show"
  | Edit => "edit" | Update => "update" | Destroy => "destroy"
  end.

Inductive Method : Type := GET | POST | PUT | PATCH | DELETE.

Definition methodForAction (action : Action) : Method :=
  match action with
  | Index | Create | Show | Edit => GET
  | Store => POST
  | Update => PUT
  | Destroy => DELETE
  end.

(** The type guard [isValidAction(x): x is Action]: the narrowed action when
    [x] is one of the seven names, nothing otherwise ([x] is [undefined] when
    the route name has no second segment). *)
Definition isValidAction (x : option string) : option Action :=
  match x with
  | Some s =>
      if String.eqb s "index" then Some Index
      else if String.eqb s "create" then Some Create
      else if String.eqb s "store" then Some Store
      else if String.eqb s "show" then Some Show
      else if String.eqb s "edit" then Some Edit
      else if String.eqb s "update" then Some Update
      else if String.eqb s "destroy" then Some Destroy
      else None
  | None => None
  end.

Definition toSingular (plural : string) : string :=
  if Str.endsWith plural "ies" then Str.sliceEnd plural 3 +:+ "y"
  else if Str.endsWith plural "ses" then Str.sliceEnd plural 2
  else if Str.endsWith plural "s" then Str.sliceEnd plural 1
  else plural.

Definition trimSlashes (s : string) : string :=
  Str.dropTrailing "/" (Str.dropLeading "/" s).

(** [path.replace(/\/{2,}/g, "/")]: every run of two or more slashes becomes
    one slash, that is, a slash directly followed by a slash is dropped. *)
Fixpoint collapseSlashes (s : string) : string :=
  match s with
  | String a r =>
      match r with
      | String b _ =>
          if Ascii.eqb a "/" && Ascii.eqb b "/" then collapseSlashes r
          else String a (collapseSlashes r)
      | "" => String a ""
      end
  | "" => ""
  end.

(** [joinUrl(...parts)] *)
Definition joinUrl (parts : list string) : string :=
  let cleaned :=
    List.map trimSlashes (List.filter (fun p => negb (Str.isEmpty p)) parts) in
  let path := Str.join "/" cleaned in
  let path :=
    if negb (Str.startsWith path "http") && negb (Str.startsWith path "/")
    then "/" +:+ path else path in
  collapseSlashes path.

(** ** Failures *)

(** The four [throw new Error(...)] of the source, with the data their
    messages are built from. *)
Inductive RouteError : Type :=
| InvalidResource (expected got : string)
| InvalidAction (got : option string)
| MissingPrefixParam (key : string)
| MissingIdentifierParam (singular : string) (action : Action).

Definition quoted (s : string) : string :=
  String "034" s +:+ String "034" "".

Definition message (e : RouteError) : string :=
  match e with
  | InvalidResource expected got =>
      "Route resolver: expected resource " +:+ quoted expected +:+
      ", got " +:+ quoted got +:+ "."
  | InvalidAction got =>
      "Route resolver: unknown action " +:+
      quoted (default "undefined" got) +:+ "."
  | MissingPrefixParam key =>
      "Missing route prefix param: " +:+ quoted key
  | MissingIdentifierParam singular action =>
      "Missing resource id param: expected " +:+ quoted singular +:+
      " or " +:+ quoted "id" +:+ " for action " +:+
      quoted (actionName action) +:+ "."
  end.

Inductive Result (A : Type) : Type :=
| Ok (a : A)
| Throw (e : RouteError).
Arguments Ok {A} a.
Arguments Throw {A} e.

(** ** The monad of path construction

    A computation reads and extends the set of used keys and may throw. *)
Definition M (A : Type) : Type := gset string -> Result (A * gset string).

Definition ret {A} (a : A) : M A := fun used => Ok (a, used).

Definition bind {A B} (m : M A) (k : A -> M B) : M B :=
  fun used =>
    match m used with
    | Ok (a, used') => k a used'
    | Throw e => Throw e
    end.

Definition throw {A} (e : RouteError) : M A := fun _ => Throw e.

(** [used.add(key)] *)
Definition addUsed (key : string) : M unit :=
  fun used => Ok (tt, {[key]} ∪ used).

Notation "'let*' x ':=' m 'in' k" := (bind m (fun x => k))
  (at level 10, x name, m at level 100, k at level 200).

(** ** Prefix placeholders: [template.replace(/\{(\w+)\}/g, callback)] *)

(** The regular expression [\{(\w+)\}] anchored at the start of [s]: the
    captured key and what follows the match.  [\w+] is greedy and a closing
    brace is not a word character, so the key is the longest run of word
    characters after the opening brace. *)
Definition matchPlaceholder (s : string) : option (string * string) :=
  match s with
  | String a r =>
      if Ascii.eqb a "{" then
        match Str.span is_word r with
        | (String k ks, String b rest) =>
            if Ascii.eqb b "}" then Some (String k ks, rest) else None
        | _ => None
        end
      else None
  | "" => None
  end.

Lemma span_length p s w r :
  Str.span p s = (w, r) -> String.length s = String.length w + String.length r.
Proof.
  revert w r. induction s as [|a s IH]; intros w r; simpl.
  - intros [= <- <-]. reflexivity.
  - destruct (p a).
    + destruct (Str.span p s) as [w' r'] eqn:E. intros [= <- <-].
      simpl. f_equal. apply IH. reflexivity.
    + intros [= <- <-]. reflexivity.
Qed.

Lemma matchPlaceholder_shorter s key rest :
  matchPlaceholder s = Some (key, rest) -> String.length rest < String.length s.
Proof.
  destruct s as [|a s]; simpl; [discriminate|].
  destruct (Ascii.eqb a "{"); [|discriminate].
  destruct (Str.span is_word s) as [w r] eqn:E.
  apply span_length in E.
  destruct w as [|k ks]; [discriminate|].
  destruct r as [|b r]; [discriminate|].
  destruct (Ascii.eqb b "}"); [|discriminate].
  intros [= <- <-]. simpl in *. lia.
Qed.

Inductive Piece : Type :=
| Lit (c : ascii)
| Placeholder (key : string).

Definition inspect {A} (a : A) : {b : A | a = b} := exist _ a eq_refl.

(** The matches of the global regular expression, scanning left to right:
    at each position either a placeholder matches, and scanning resumes
    after it, or the character there is kept literally.  The unfolding
    equations are derived without functional extensionality. *)
Unset Equations With Funext.

Equations? pieces (s : string) : list Piece by wf (String.length s) lt :=
  pieces "" := [];
  pieces (String c r) with inspect (matchPlaceholder (String c r)) := {
    | exist _ (Some (key, rest)) _ => Placeholder key :: pieces rest
    | exist _ None _ => Lit c :: pieces r }.
Proof.
  exact (matchPlaceholder_shorter (String c r) key rest e).
Qed.

(** The replacement callback of [replaceTokens], called on each match; a
    character outside the matches is copied. *)
Definition substitute (params : Params) (p : Piece) : M string :=
  match p with
  | Lit c => ret (String c "")
  | Placeholder key =>
      if negb (hasKey key params) then throw (MissingPrefixParam key)
      else let* _ := addUsed key in
           ret (encodeURIComponent (toStr (getParam key params)))
  end.

Fixpoint substituteAll (params : Params) (ps : list Piece) : M string :=
  match ps with
  | [] => ret ""
  | p :: rest =>
      let* s := substitute params p in
      let* t := substituteAll params rest in
      ret (s +:+ t)
  end.

(** [template.replace(/\{(\w+)\}/g, callback)] *)
Definition replacePlaceholders (template : string) (params : Params)
  : M string :=
  substituteAll params (pieces template).

Definition replaceTokens (template : string) (params : Params) : M string :=
  if Str.isEmpty template then ret ""
  else let* s := replacePlaceholders template params in
       ret (trimSlashes s).

(** ** The resource-relative segment *)

(** [idNeeded.includes(action)] *)
Definition needsId (action : Action) : bool :=
  match action with
  | Show | Edit | Update | Destroy => true
  | Index | Create | Store => false
  end.

(** [candidateKeys.find((k) => k in params)] *)
Definition findKey (candidateKeys : list string) (params : Params)
  : option string :=
  List.find (fun k => hasKey k params) candidateKeys.

(** [!key] for [key : string | undefined]: [undefined] and the empty string
    are the falsy values. *)
Definition falsy (key : option string) : bool :=
  match key with
  | None => true
  | Some k => Str.isEmpty k
  end.

Definition actionToPath (action : Action) (singular : string) (params : Params)
  : M string :=
  let* idSegment :=
    (if needsId action then
       let key := findKey [singular; "id"] params in
       if falsy key then throw (MissingIdentifierParam singular action)
       else
         let k := default "" key in
         let* _ := addUsed k in
         ret ("/" +:+ encodeURIComponent (toStr (getParam k params)))
     else ret "") in
  ret (match action with
       | Index => ""
       | Create => "/create"
       | Store => ""
       | Show => idSegment
       | Edit => idSegment +:+ "/edit"
       | Update => idSegment
       | Destroy => idSegment
       end).

(** ** The query string *)

(** The pairs appended to the [URLSearchParams] for one entry. *)
Definition entryPairs (e : string * Value) : list (string * string) :=
  match e.2 with
  | VArr items => List.map (fun item => (e.1 +:+ "[]", toStr item)) items
  | v => [(e.1, toStr v)]
  end.

(** [usp.toString()] *)
Definition uspToString (usp : list (string * string)) : string :=
  Str.join "&"
    (List.map (fun p => formEncode p.1 +:+ "=" +:+ formEncode p.2) usp).

(** [Object.entries(params).filter(...)] *)
Definition unusedEntries (params : Params) (used : gset string)
  : list (string * Value) :=
  List.filter (fun e => negb (bool_decide (e.1 ∈ used)) && notNullish e.2)
              (ownEntries params).

Definition buildQueryString (params : Params) (used : gset string) : string :=
  let entries := unusedEntries params used in
  match entries with
  | [] => ""
  | _ => uspToString (List.flat_map entryPairs entries)
  end.

(** ** The resolver *)

Record ResolverOptions : Type := {
  prefix : option string;
  resourceParam : option string;
  trailingSlash : option bool;
  baseUrl : option string
}.

(** [opts = {}] *)
Definition noOptions : ResolverOptions :=
  {| prefix := None; resourceParam := None;
     trailingSlash := None; baseUrl := None |}.

(** The closure returned by the factory: the constants [route] captures. *)
Record RouteFn : Type := {
  rfResource : string;
  rfPrefix : string;
  rfSingular : string;
  rfTrailingSlash : bool;
  rfBaseUrl : string
}.

Definition createLaravelResourceResolver
    (resource : string) (opts : ResolverOptions) : RouteFn :=
  {| rfResource := resource;
     rfPrefix := default "" (prefix opts);
     rfSingular := default (toSingular resource) (resourceParam opts);
     rfTrailingSlash := default false (trailingSlash opts);
     rfBaseUrl := default "" (baseUrl opts) |}.

(** The path of the URL, before the query string, and the keys it used. *)
Definition buildPath (f : RouteFn) (action : Action) (params : Params)
  : M string :=
  let* prefixPath := replaceTokens (rfPrefix f) params in
  let root := "/" +:+ trimSlashes (rfResource f) in
  let* rel := actionToPath action (rfSingular f) params in
  let url := joinUrl [rfBaseUrl f; prefixPath; root; rel] in
  ret (if rfTrailingSlash f && negb (Str.endsWith url "/")
       then url +:+ "/" else url).

(** The body of [route] once the name is accepted: the path, then the query
    string of the parameters the path did not use.  [usedKeys] starts as a
    fresh empty set in every call. *)
Definition resolve (f : RouteFn) (action : Action) (params : Params)
  : Result string :=
  match buildPath f action params ∅ with
  | Throw e => Throw e
  | Ok (url, usedKeys) =>
      let qs := buildQueryString params usedKeys in
      Ok (if negb (Str.isEmpty qs) then url +:+ "?" +:+ qs else url)
  end.

(** [route(name, params)]; a call without [params] passes [noParams]. *)
Definition route (f : RouteFn) (name : string) (params : Params)
  : Result string :=
  let parts := Str.split "." name in
  let res := List.hd "" parts in
  let action := List.nth_error parts 1 in
  if negb (String.eqb res (rfResource f))
  then Throw (InvalidResource (rfResource f) res)
  else
    match isValidAction action with
    | None => Throw (InvalidAction action)
    | Some action => resolve f action params
    end.

(** ** The resolver on a store

    The same functions once more, with the objects a call shares made
    explicit: the [Set] of used keys, which [route] allocates and its
    helpers receive by reference, and the parameter object, which the
    caller owns.  A store holds the objects by address; a computation reads
    and writes the store and may throw, and what it wrote stays written
    when it throws. *)

Record Heap : Type := {
  setCells : list (gset string);
  objCells : list Params
}.

Definition setAt (h : Heap) (u : nat) : gset string :=
  default ∅ (setCells h !! u).

Definition objAt (h : Heap) (p : nat) : Params :=
  default {| ownEntries := []; hiddenProps := [] |} (objCells h !! p).

(** The store with the set at [u] replaced. *)
Definition setSet (h : Heap) (u : nat) (s : gset string) : Heap :=
  {| setCells := <[u := s]> (setCells h); objCells := objCells h |}.

Definition St (A : Type) : Type := Heap -> Result A * Heap.

Definition retS {A} (a : A) : St A := fun h => (Ok a, h).

Definition bindS {A B} (m : St A) (k : A -> St B) : St B :=
  fun h =>
    match m h with
    | (Ok a, h') => k a h'
    | (Throw e, h') => (Throw e, h')
    end.

Definition throwS {A} (e : RouteError) : St A := fun h => (Throw e, h).

Notation "'do*' x ':=' m 'in' k" := (bindS m (fun x => k))
  (at level 10, x name, m at level 100, k at level 200).

(** [new Set<string>()]: a fresh empty set at the next address. *)
Definition newSet : St nat :=
  fun h => (Ok (length (setCells h)),
            {| setCells := setCells h ++ [∅]; objCells := objCells h |}).

(** [used.add(key)] *)
Definition setAdd (used : nat) (key : string) : St unit :=
  fun h => (Ok tt, setSet h used ({[key]} ∪ setAt h used)).

(** [used.has(key)] *)
Definition setHas (used : nat) (key : string) : St bool :=
  fun h => (Ok (bool_decide (key ∈ setAt h used)), h).

(** [key in params] *)
Definition objHas (p : nat) (key : string) : St bool :=
  fun h => (Ok (hasKey key (objAt h p)), h).

(** [params[key]] *)
Definition objGet (p : nat) (key : string) : St Value :=
  fun h => (Ok (getParam key (objAt h p)), h).

(** [Object.entries(params)] *)
Definition objEntries (p : nat) : St (list (string * Value)) :=
  fun h => (Ok (ownEntries (objAt h p)), h).

Definition substituteS (p used : nat) (piece : Piece) : St string :=
  match piece with
  | Lit c => retS (String c "")
  | Placeholder key =>
      do* present := objHas p key in
      if negb present then throwS (MissingPrefixParam key)
      else do* _ := setAdd used key in
           do* v := objGet p key in
           retS (encodeURIComponent (toStr v))
  end.

Fixpoint substituteAllS (p used : nat) (ps : list Piece) : St string :=
  match ps with
  | [] => retS ""
  | piece :: rest =>
      do* s := substituteS p used piece in
      do* t := substituteAllS p used rest in
      retS (s +:+ t)
  end.

Definition replaceTokensS (template : string) (p used : nat) : St string :=
  if Str.isEmpty template then retS ""
  else do* s := substituteAllS p used (pieces template) in
       retS (trimSlashes s).

(** [candidateKeys.find((k) => k in params)] *)
Fixpoint findKeyS (p : nat) (candidateKeys : list string)
  : St (option string) :=
  match candidateKeys with
  | [] => retS None
  | k :: rest =>
      do* present := objHas p k in
      if present then retS (Some k) else findKeyS p rest
  end.

Definition actionToPathS (action : Action) (singular : string) (p used : nat)
  : St string :=
  do* idSegment :=
    (if needsId action then
       do* key := findKeyS p [singular; "id"] in
       if falsy key then throwS (MissingIdentifierParam singular action)
       else
         let k := default "" key in
         do* _ := setAdd used k in
         do* v := objGet p k in
         retS ("/" +:+ encodeURIComponent (toStr v))
     else retS "") in
  retS (match action with
        | Index => ""
        | Create => "/create"
        | Store => ""
        | Show => idSegment
        | Edit => idSegment +:+ "/edit"
        | Update => idSegment
        | Destroy => idSegment
        end).

(** [entries.filter(([k, v]) => !used.has(k) && v !== undefined && v !== null)] *)
Fixpoint filterUnusedS (used : nat) (entries : list (string * Value))
  : St (list (string * Value)) :=
  match entries with
  | [] => retS []
  | e :: rest =>
      do* seen := setHas used e.1 in
      do* kept := filterUnusedS used rest in
      retS (if negb seen && notNullish e.2 then e :: kept else kept)
  end.

Definition buildQueryStringS (p used : nat) : St string :=
  do* all := objEntries p in
  do* entries := filterUnusedS used all in
  retS (match entries with
        | [] => ""
        | _ => uspToString (List.flat_map entryPairs entries)
        end).

(** [route(name, params)] with [params] at address [p]. *)
Definition routeS (f : RouteFn) (name : string) (p : nat) : St string :=
  let parts := Str.split "." name in
  let res := List.hd "" parts in
  let action := List.nth_error parts 1 in
  if negb (String.eqb res (rfResource f))
  then throwS (InvalidResource (rfResource f) res)
  else
    match isValidAction action with
    | None => throwS (InvalidAction action)
    | Some action =>
        do* usedKeys := newSet in
        do* prefixPath := replaceTokensS (rfPrefix f) p usedKeys in
        let root := "/" +:+ trimSlashes (rfResource f) in
        do* rel := actionToPathS action (rfSingular f) p usedKeys in
        let url := joinUrl [rfBaseUrl f; prefixPath; root; rel] in
        let url := if rfTrailingSlash f && negb (Str.endsWith url "/")
                   then url +:+ "/" else url in
        do* qs := buildQueryStringS p usedKeys in
        retS (if negb (Str.isEmpty qs) then url +:+ "?" +:+ qs else url)
    end.

(** ** Vocabulary of the statements *)

(** A string ends in [suf]. *)
Definition endsIn (s suf : string) : Prop := exists p, s = p +:+ suf.

(** The resource-relative segment of an identifier-bound action whose
    identifier parameter holds [v]. *)
Definition identifierPath (action : Action) (v : Value) : string :=
  "/" +:+ encodeURIComponent (toStr v) +:+
  match action with Edit => "/edit" | _ => "" end.



(** The characters of [s] all satisfy [p]. *)
Fixpoint allChars (p : ascii -> bool) (s : string) : bool :=
  match s with
  | String a r => p a && allChars p r
  | "" => true
  end.

(** A placeholder name: one or more word characters. *)
Definition isName (k : string) : bool :=
  negb (Str.isEmpty k) && allChars is_word k.

(** The token [{k}]. *)
Definition braced (k : string) : string := "{" +:+ k +:+ "}".

(** No placeholder occurs in [s]. *)
Definition placeholderFree (s : string) : Prop :=
  forall pre k post, isName k = true -> s <> pre +:+ braced k +:+ post.

(** A prefix template read as the specification reads it: a text, then
    placeholders each followed by a text, where the texts hold no
    placeholder. *)
Definition Template : Type := string * list (string * string).

Fixpoint renderHoles (hs : list (string * string)) : string :=
  match hs with
  | [] => ""
  | (k, txt) :: rest => braced k +:+ txt +:+ renderHoles rest
  end.

Definition render (t : Template) : string := t.1 +:+ renderHoles t.2.

Definition wellFormed (t : Template) : Prop :=
  placeholderFree t.1 /\
  Forall (fun h => isName h.1 = true /\ placeholderFree h.2) t.2.

Definition holes (t : Template) : list string := List.map fst t.2.

(** The template with each placeholder replaced by the encoded value of its
    parameter. *)
Fixpoint fillHoles (params : Params) (hs : list (string * string)) : string :=
  match hs with
  | [] => ""
  | (k, txt) :: rest =>
      encodeURIComponent (toStr (getParam k params)) +:+ txt +:+
      fillHoles params rest
  end.

Definition fill (params : Params) (t : Template) : string :=
  t.1 +:+ fillHoles params t.2.

(** The characters of a string as literal pieces. *)
Fixpoint lits (s : string) : list Piece :=
  match s with
  | String a r => Lit a :: lits r
  | "" => []
  end.

(** A string that is empty or begins with an opening brace. *)
Definition fresh (s : string) : Prop :=
  match s with
  | "" => True
  | String c _ => c = "{"%char
  end.

(** [t] occurs in [s]. *)
Definition occursIn (t s : string) : Prop := exists x y, s = x +:+ t +:+ y.

(** The resolvers of the examples. *)
Definition photosRoute : RouteFn :=
  createLaravelResourceResolver "photos" noOptions.

Definition apiRoute : RouteFn :=
  createLaravelResourceResolver "R"
    {| prefix := None; resourceParam := None;
       trailingSlash := Some true; baseUrl := Some "https://api.example.com" |}.

Definition emptyKeyRoute : RouteFn :=
  createLaravelResourceResolver "photos"
    {| prefix := None; resourceParam := Some "";
       trailingSlash := None; baseUrl := None |}.

(** The character is a slash. *)
Definition isSlash (c : ascii) : bool := Ascii.eqb c "/".

(** The characters an encoded URI component is made of: the unreserved ones
    and the percent sign of the escapes. *)
Definition uriSafe (c : ascii) : bool := uri_unreserved c || Ascii.eqb c "%".

(** The characters a serialized query string is made of. *)
Definition querySafe (c : ascii) : bool :=
  form_unreserved c || existsb (Ascii.eqb c) ["%"; "+"; "="; "&"]%char.


(** Every placeholder of the template names a key of the parameters. *)
Definition placeholdersPresent (template : string) (params : Params) : Prop :=
  forall k, In (Placeholder k) (pieces template) -> hasKey k params = true.


(** What follows the resource, or the identifier, in the path of an action. *)
Definition actionSuffix (action : Action) : string :=
  match action with
  | Create => "/create"
  | Edit => "/edit"
  | _ => ""
  end.

(** The pieces written back as text, a placeholder as its token. *)
Fixpoint unparse (ps : list Piece) : string :=
  match ps with
  | [] => ""
  | Lit c :: rest => String c (unparse rest)
  | Placeholder k :: rest => braced k +:+ unparse rest
  end.

(** A run on the store agrees with a run of the state-passing model: it
    changes the set at [u] only, throws alike and returns alike. *)
Definition simulates {A} (u : nat) (h : Heap) (r : Result A * Heap)
    (m : Result (A * gset string)) : Prop :=
  exists w, r.2 = setSet h u w /\
            match m with
            | Ok (a, used') => r.1 = Ok a /\ w = used'
            | Throw e => r.1 = Throw e
            end.

(** The body of [route] after [new Set()], in the state-passing model. *)
Definition resolveM (f : RouteFn) (action : Action) (params : Params)
  : M string :=
  let* prefixPath := replaceTokens (rfPrefix f) params in
  let root := "/" +:+ trimSlashes (rfResource f) in
  let* rel := actionToPath action (rfSingular f) params in
  let url := joinUrl [rfBaseUrl f; prefixPath; root; rel] in
  let url := if rfTrailingSlash f && negb (Str.endsWith url "/")
             then url +:+ "/" else url in
  fun used =>
    let qs := buildQueryString params used in
    Ok (if negb (Str.isEmpty qs) then url +:+ "?" +:+ qs else url, used).

(** * Properties *)

(** ** The examples of the README *)

Example readme_index : route photosRoute "photos.index" noParams = Ok "/photos".
Proof. vm_compute. reflexivity. Qed.

Example readme_create : route photosRoute "photos.create" noParams = Ok "/photos/create".
Proof. vm_compute. reflexivity. Qed.

Example readme_show :
  route photosRoute "photos.show" (objectLiteral [("photo", VNum 42)]) = Ok "/photos/42".
Proof. vm_compute. reflexivity. Qed.

Example readme_show_id :
  route photosRoute "photos.show" (objectLiteral [("id", VNum 42)]) = Ok "/photos/42".
Proof. vm_compute. reflexivity. Qed.

Example readme_edit :
  route photosRoute "photos.edit" (objectLiteral [("photo", VNum 42)]) = Ok "/photos/42/edit".
Proof. vm_compute. reflexivity. Qed.

Example readme_nested :
  route (createLaravelResourceResolver "photos"
           {| prefix := Some "/users/{user}"; resourceParam := None;
              trailingSlash := None; baseUrl := None |})
        "photos.show" (objectLiteral [("user", VNum 7); ("photo", VNum 42)])
  = Ok "/users/7/photos/42".
Proof. vm_compute. reflexivity. Qed.

Example readme_array_query :
  route photosRoute "photos.index" (objectLiteral [("key", VArr [VStr "v1"; VStr "v2"])])
  = Ok "/photos?key%5B%5D=v1&key%5B%5D=v2".
Proof. vm_compute. reflexivity. Qed.

Example unknown_action_message :
  route photosRoute "photos.list" noParams = Throw (InvalidAction (Some "list")) /\
  message (InvalidAction (Some "list"))
  = String.concat (String "034" "")
      ["Route resolver: unknown action "; "list"; "."].
Proof. split; vm_compute; reflexivity. Qed.

(** ** Strings *)

Section StringFacts.

Lemma app_nil_l (s : string) : "" +:+ s = s.
Proof. reflexivity. Qed.

Lemma app_cons (a : ascii) (s t : string) :
  String a s +:+ t = String a (s +:+ t).
Proof. reflexivity. Qed.

Lemma app_nil_r (s : string) : s +:+ "" = s.
Proof. induction s as [|a s IH]; [reflexivity|]. rewrite app_cons, IH. reflexivity. Qed.

Lemma app_assoc (s t u : string) : (s +:+ t) +:+ u = s +:+ t +:+ u.
Proof.
  induction s as [|a s IH]; [reflexivity|].
  rewrite !app_cons, IH. reflexivity.
Qed.

Lemma length_app (s t : string) :
  String.length (s +:+ t) = String.length s + String.length t.
Proof.
  induction s as [|a s IH]; [reflexivity|].
  rewrite app_cons. simpl. rewrite IH. reflexivity.
Qed.

Lemma app_eq_nil (s t : string) : s +:+ t = "" -> s = "" /\ t = "".
Proof. destruct s; [rewrite app_nil_l; auto | rewrite app_cons; discriminate]. Qed.

Lemma substring_all (s : string) : String.substring 0 (String.length s) s = s.
Proof. induction s as [|a s IH]; [reflexivity|]. simpl. rewrite IH. reflexivity. Qed.

Lemma substring_skip (p s : string) (n : nat) :
  String.substring (String.length p) n (p +:+ s) = String.substring 0 n s.
Proof.
  induction p as [|a p IH]; [reflexivity|].
  rewrite app_cons. simpl. exact IH.
Qed.

Lemma substring_take (p s : string) :
  String.substring 0 (String.length p) (p +:+ s) = p.
Proof.
  induction p as [|a p IH].
  - rewrite app_nil_l. destruct s; reflexivity.
  - rewrite app_cons. simpl. rewrite IH. reflexivity.
Qed.

Lemma substring_split (s : string) (n : nat) :
  n <= String.length s ->
  s = String.substring 0 n s +:+ String.substring n (String.length s - n) s.
Proof.
  revert n. induction s as [|a s IH]; intros n Hn.
  - destruct n; reflexivity.
  - destruct n as [|n].
    + simpl String.substring at 1. rewrite app_nil_l.
      replace (String.length (String a s) - 0) with (String.length (String a s)) by lia.
      symmetry. apply substring_all.
    + simpl in Hn. simpl. rewrite app_cons. f_equal. apply IH. lia.
Qed.

Lemma endsWith_app (p suf : string) : Str.endsWith (p +:+ suf) suf = true.
Proof.
  unfold Str.endsWith. rewrite length_app.
  apply andb_true_intro. split.
  - apply Nat.leb_le. lia.
  - replace (String.length p + String.length suf - String.length suf)
      with (String.length p) by lia.
    rewrite substring_skip, substring_all. apply String.eqb_refl.
Qed.

Lemma endsWith_inv (s suf : string) :
  Str.endsWith s suf = true -> exists p, s = p +:+ suf.
Proof.
  unfold Str.endsWith. intros [Hle Heq]%andb_prop.
  apply Nat.leb_le in Hle. apply String.eqb_eq in Heq.
  exists (String.substring 0 (String.length s - String.length suf) s).
  rewrite (substring_split s (String.length s - String.length suf)) at 1 by lia.
  f_equal.
  replace (String.length s - (String.length s - String.length suf))
    with (String.length suf) by lia.
  exact Heq.
Qed.

Lemma endsWith_iff (s suf : string) :
  Str.endsWith s suf = true <-> exists p, s = p +:+ suf.
Proof.
  split; [apply endsWith_inv|]. intros [p ->]. apply endsWith_app.
Qed.

Lemma sliceEnd_app (p suf : string) :
  Str.sliceEnd (p +:+ suf) (String.length suf) = p.
Proof.
  unfold Str.sliceEnd. rewrite length_app.
  replace (String.length p + String.length suf - String.length suf)
    with (String.length p) by lia.
  apply substring_take.
Qed.

End StringFacts.

(** ** Method lookup and singularization *)

(** C7.  [methodForAction] is the fixed table: index, create, show and edit
    give GET, store gives POST, update gives PUT, destroy gives DELETE; no
    action gives PATCH. *)
Theorem methodForAction_table :
  methodForAction Index = GET /\ methodForAction Create = GET /\
  methodForAction Show = GET /\ methodForAction Edit = GET /\
  methodForAction Store = POST /\ methodForAction Update = PUT /\
  methodForAction Destroy = DELETE /\
  forall action, methodForAction action <> PATCH.
Proof.
  repeat split. intros []; discriminate.
Qed.

(** C6.  The derived singular follows the priority order: a final "ies"
    becomes "y"; otherwise a final "ses" loses its "es"; otherwise a final
    "s" is dropped; otherwise the name is unchanged.  The resolver uses the
    explicit [resourceParam] when there is one, and the derived singular of
    the resource otherwise. *)
Theorem toSingular_priority :
  (forall p, toSingular (p +:+ "ies") = p +:+ "y") /\
  (forall p, ~ endsIn (p +:+ "ses") "ies" ->
             toSingular (p +:+ "ses") = p +:+ "s") /\
  (forall p, ~ endsIn (p +:+ "s") "ies" -> ~ endsIn (p +:+ "s") "ses" ->
             toSingular (p +:+ "s") = p) /\
  (forall s, ~ endsIn s "s" -> toSingular s = s) /\
  (forall resource opts key,
      resourceParam opts = Some key ->
      rfSingular (createLaravelResourceResolver resource opts) = key) /\
  (forall resource opts,
      resourceParam opts = None ->
      rfSingular (createLaravelResourceResolver resource opts)
      = toSingular resource).
Proof.
  assert (Hno : forall s suf, ~ endsIn s suf -> Str.endsWith s suf = false).
  { intros s suf H. destruct (Str.endsWith s suf) eqn:E; [|reflexivity].
    exfalso. apply H, endsWith_inv, E. }
  repeat split.
  - intros p. unfold toSingular. rewrite endsWith_app.
    change 3 with (String.length "ies").
    rewrite sliceEnd_app. reflexivity.
  - intros p H1. unfold toSingular. rewrite (Hno _ _ H1), endsWith_app.
    change (p +:+ "ses") with (p +:+ "s" +:+ "es").
    rewrite <- app_assoc. change 2 with (String.length "es").
    apply sliceEnd_app.
  - intros p H1 H2. unfold toSingular.
    rewrite (Hno _ _ H1), (Hno _ _ H2), endsWith_app.
    change 1 with (String.length "s"). apply sliceEnd_app.
  - intros s H. unfold toSingular.
    assert (H1 : ~ endsIn s "ies").
    { intros [p ->]. apply H. exists (p +:+ "ie"). rewrite app_assoc. reflexivity. }
    assert (H2 : ~ endsIn s "ses").
    { intros [p ->]. apply H. exists (p +:+ "se"). rewrite app_assoc. reflexivity. }
    rewrite (Hno _ _ H1), (Hno _ _ H2), (Hno _ _ H). reflexivity.
  - intros resource opts key H. simpl. rewrite H. reflexivity.
  - intros resource opts H. simpl. rewrite H. reflexivity.
Qed.

Lemma toSingular_priority_witness :
  toSingular "categories" = "category" /\ toSingular "classes" = "class" /\
  toSingular "photos" = "photo" /\ toSingular "sheep" = "sheep" /\
  rfSingular (createLaravelResourceResolver "photos"
    {| prefix := None; resourceParam := Some "pic";
       trailingSlash := None; baseUrl := None |}) = "pic" /\
  rfSingular (createLaravelResourceResolver "photos" noOptions) = "photo".
Proof.
  destruct toSingular_priority as (H1 & H2 & H3 & H4 & H5 & H6).
  assert (Hno : forall s suf, Str.endsWith s suf = false -> ~ endsIn s suf).
  { intros s suf E H. apply endsWith_iff in H. congruence. }
  split; [exact (H1 "categor")|].
  split; [apply (H2 "clas"); apply Hno; reflexivity|].
  split; [apply (H3 "photo"); apply Hno; reflexivity|].
  split; [apply (H4 "sheep"); apply Hno; reflexivity|].
  split; [apply H5; reflexivity|].
  rewrite H6; reflexivity.
Defined.

(** ** Route names *)

Section RouteNames.

Lemma split_not_nil c s : Str.split c s <> [].
Proof.
  destruct s as [|a s]; simpl; [discriminate|].
  destruct (Ascii.eqb a c); [discriminate|].
  destruct (Str.split c s); discriminate.
Qed.

(** The first segment of a split never contains the separator. *)
Lemma split_hd_no_sep c s : Str.contains c (List.hd "" (Str.split c s)) = false.
Proof.
  induction s as [|a s IH]; simpl; [reflexivity|].
  destruct (Ascii.eqb a c) eqn:E; [reflexivity|].
  destruct (Str.split c s) as [|h t]; simpl in *.
  - rewrite E. reflexivity.
  - rewrite E, IH. reflexivity.
Qed.

Lemma split_no_sep c s : Str.contains c s = false -> Str.split c s = [s].
Proof.
  induction s as [|a s IH]; simpl; [reflexivity|].
  intros [E H]%orb_false_elim. rewrite E, (IH H). reflexivity.
Qed.

(** Splitting at the first separator: the text before it is the first
    segment and the rest is split in turn. *)
Lemma split_first c res rest :
  Str.contains c res = false ->
  Str.split c (res +:+ String c rest) = res :: Str.split c rest.
Proof.
  induction res as [|a res IH]; intros H.
  - rewrite app_nil_l. simpl. rewrite Ascii.eqb_refl. reflexivity.
  - simpl in H. apply orb_false_elim in H as [E H].
    rewrite app_cons. simpl. rewrite E, (IH H). reflexivity.
Qed.

Lemma contains_neq c s t :
  Str.contains c s = true -> Str.contains c t = false -> t <> s.
Proof. intros Hs Ht ->. congruence. Qed.

Lemma isValidAction_name (a : Action) : isValidAction (Some (actionName a)) = Some a.
Proof. destruct a; reflexivity. Qed.

Lemma isValidAction_Some s a : isValidAction (Some s) = Some a -> s = actionName a.
Proof.
  unfold isValidAction.
  repeat match goal with
         | |- context [String.eqb s ?x] =>
             destruct (String.eqb_spec s x) as [->|_];
             [intros [= <-]; reflexivity|]
         end.
  discriminate.
Qed.

Lemma isValidAction_None s :
  (forall a, s <> actionName a) -> isValidAction (Some s) = None.
Proof.
  intros H. destruct (isValidAction (Some s)) as [a|] eqn:E; [|reflexivity].
  apply isValidAction_Some in E. destruct (H a E).
Qed.

End RouteNames.

Lemma route_segments f name params :
  route f name params =
  let parts := Str.split "." name in
  if negb (String.eqb (List.hd "" parts) (rfResource f))
  then Throw (InvalidResource (rfResource f) (List.hd "" parts))
  else match isValidAction (List.nth_error parts 1) with
       | None => Throw (InvalidAction (List.nth_error parts 1))
       | Some a => resolve f a params
       end.
Proof. reflexivity. Qed.

(** C10.  When the configured resource contains a ".", every call fails with
    the resource error, whatever the name and the parameters: the segment of
    the name before its first "." contains no ".". *)
Theorem route_dotted_resource f name params :
  Str.contains "." (rfResource f) = true ->
  route f name params =
  Throw (InvalidResource (rfResource f) (List.hd "" (Str.split "." name))).
Proof.
  intros Hdot. rewrite route_segments. cbv zeta.
  destruct (String.eqb_spec (List.hd "" (Str.split "." name)) (rfResource f))
    as [E|_]; [|reflexivity].
  exfalso. pose proof (split_hd_no_sep "." name) as H.
  rewrite E in H. congruence.
Qed.

Lemma route_dotted_resource_witness :
  route (createLaravelResourceResolver "api.photos" noOptions)
        "api.photos.index" noParams
  = Throw (InvalidResource "api.photos" "api").
Proof.
  exact (route_dotted_resource
           (createLaravelResourceResolver "api.photos" noOptions)
           "api.photos.index" noParams eq_refl).
Defined.

(** Name validation as the code performs it.  The name is split at every
    ".": the resource is the text before the first "." and the action the
    text between the first and the second "."; whatever follows a second "."
    is ignored.  The call fails with the resource error when the first
    segment differs from the configured resource, and otherwise with the
    action error when the second segment is missing or is not one of the
    seven action names; with a recognized action the name is accepted. *)
Theorem route_name_validation f res act params :
  Str.contains "." res = false ->
  Str.contains "." act = false ->
  (forall extra,
      route f (res +:+ "." +:+ act +:+ "." +:+ extra) params
      = route f (res +:+ "." +:+ act) params) /\
  (res <> rfResource f ->
      route f (res +:+ "." +:+ act) params
      = Throw (InvalidResource (rfResource f) res)) /\
  (res = rfResource f -> (forall a, act <> actionName a) ->
      route f (res +:+ "." +:+ act) params = Throw (InvalidAction (Some act))) /\
  (res = rfResource f -> forall a, act = actionName a ->
      route f (res +:+ "." +:+ act) params = resolve f a params) /\
  route f res params
  = if String.eqb res (rfResource f) then Throw (InvalidAction None)
    else Throw (InvalidResource (rfResource f) res).
Proof.
  intros Hres Hact.
  assert (S2 : Str.split "." (res +:+ "." +:+ act) = [res; act]).
  { change ("." +:+ act) with (String "." act).
    rewrite (split_first _ _ _ Hres), (split_no_sep _ _ Hact). reflexivity. }
  assert (S3 : forall extra,
             Str.split "." (res +:+ "." +:+ act +:+ "." +:+ extra)
             = res :: act :: Str.split "." extra).
  { intros extra.
    change ("." +:+ act +:+ "." +:+ extra) with (String "." (act +:+ String "." extra)).
    rewrite (split_first _ _ _ Hres), (split_first _ _ _ Hact). reflexivity. }
  repeat split.
  - intros extra. rewrite !route_segments, S2, S3. reflexivity.
  - intros Hne. rewrite route_segments, S2. simpl.
    destruct (String.eqb_spec res (rfResource f)); [contradiction|reflexivity].
  - intros -> Hnone. rewrite route_segments, S2. cbv zeta.
    change (List.hd "" [rfResource f; act]) with (rfResource f).
    change (List.nth_error [rfResource f; act] 1) with (Some act).
    rewrite String.eqb_refl, (isValidAction_None _ Hnone). reflexivity.
  - intros -> a ->. rewrite route_segments, S2. cbv zeta.
    change (List.hd "" [rfResource f; actionName a]) with (rfResource f).
    change (List.nth_error [rfResource f; actionName a] 1) with (Some (actionName a)).
    rewrite String.eqb_refl, isValidAction_name. reflexivity.
  - rewrite route_segments, (split_no_sep _ _ Hres). simpl.
    destruct (String.eqb res (rfResource f)); reflexivity.
Qed.

Lemma route_name_validation_witness :
  route photosRoute "photos.show.extra" (objectLiteral [("id", VNum 1)])
  = route photosRoute "photos.show" (objectLiteral [("id", VNum 1)]) /\
  route photosRoute "photos.show" (objectLiteral [("id", VNum 1)])
  = resolve photosRoute Show (objectLiteral [("id", VNum 1)]) /\
  route photosRoute "photo" noParams = Throw (InvalidResource "photos" "photo").
Proof.
  destruct (route_name_validation photosRoute "photos" "show" (objectLiteral [("id", VNum 1)])
              eq_refl eq_refl) as (H1 & _ & _ & H4 & _).
  destruct (route_name_validation photosRoute "photo" "" noParams eq_refl eq_refl)
    as (_ & _ & _ & _ & H5).
  split; [exact (H1 "extra")|].
  split; [exact (H4 eq_refl Show eq_refl)|exact H5].
Defined.

(** C3, evaluated.  The remainder of "photos.show.extra" after its first "."
    is "show.extra", which is none of the seven action names, yet the call
    does not fail with the action error: [name.split(".")] drops what
    follows the second ".", and the name resolves as "photos.show". *)
Lemma route_extra_segment_accepted :
  (forall a, "show.extra" <> actionName a) /\
  route photosRoute "photos.show.extra" (objectLiteral [("id", VNum 1)]) = Ok "/photos/1".
Proof.
  split; [intros []; discriminate|]. vm_compute. reflexivity.
Qed.

(** ** URL joining *)

Section Joining.

Lemma collapseSlashes_head a r : exists r', collapseSlashes (String a r) = String a r'.
Proof.
  revert a. induction r as [|b r IH]; intros a; simpl; [eauto|].
  destruct (Ascii.eqb_spec a "/") as [->|Ha]; simpl.
  - destruct (Ascii.eqb_spec b "/") as [->|Hb]; [apply IH|eauto].
  - eauto.
Qed.

Lemma startsWith_double_slash a b r :
  Str.startsWith (String a (String b r)) "//"
  = Ascii.eqb a "/" && Ascii.eqb b "/".
Proof. simpl. destruct (Ascii.eqb a "/"), (Ascii.eqb b "/"); reflexivity. Qed.

Lemma startsWith_double_slash_single a : Str.startsWith (String a "") "//" = false.
Proof. simpl. destruct (Ascii.eqb a "/"); reflexivity. Qed.

(** After collapsing, no two slashes are adjacent anywhere. *)
Lemma collapseSlashes_no_double s :
  Str.includes (collapseSlashes s) "//" = false.
Proof.
  induction s as [|a r IH]; [reflexivity|].
  destruct r as [|b r].
  { cbn [collapseSlashes Str.includes].
    rewrite startsWith_double_slash_single. reflexivity. }
  change (collapseSlashes (String a (String b r)))
    with (if Ascii.eqb a "/" && Ascii.eqb b "/" then collapseSlashes (String b r)
          else String a (collapseSlashes (String b r))).
  destruct (Ascii.eqb a "/" && Ascii.eqb b "/") eqn:E; [exact IH|].
  destruct (collapseSlashes_head b r) as [r' Hr']. rewrite Hr' in *.
  cbn [Str.includes]. rewrite startsWith_double_slash, E. exact IH.
Qed.

(** The joined URL never contains "//", so the "//" that follows the scheme
    of a base URL cannot be part of it. *)
Lemma joinUrl_no_double_slash parts : Str.includes (joinUrl parts) "//" = false.
Proof. unfold joinUrl. apply collapseSlashes_no_double. Qed.

End Joining.

(** C2, evaluated.  With base URL "https://api.example.com" and the trailing
    slash set, the index route of "R" comes out as
    "https:/api.example.com/R/": collapsing the runs of slashes also
    collapses the "//" after the scheme, so the result is not
    "https://api.example.com/R/". *)
Theorem route_base_url_scheme_collapsed :
  route apiRoute "R.index" noParams = Ok "https:/api.example.com/R/" /\
  route apiRoute "R.index" noParams <> Ok "https://api.example.com/R/".
Proof.
  split; [vm_compute; reflexivity|]. vm_compute. discriminate.
Qed.

(** ** The identifier of identifier-bound actions *)

Section Identifier.

(** With a non-empty singular key the lookup order is as intended: the
    singular key when it is present, else "id" when that is present, else
    the failure naming both keys and the action. *)
Lemma actionToPath_identifier action singular params used :
  needsId action = true ->
  singular <> "" ->
  actionToPath action singular params used =
  if hasKey singular params
  then Ok (identifierPath action (getParam singular params), {[singular]} ∪ used)
  else if hasKey "id" params
       then Ok (identifierPath action (getParam "id" params), {["id"]} ∪ used)
       else Throw (MissingIdentifierParam singular action).
Proof.
  intros Hid Hne. unfold actionToPath, bind, findKey. rewrite Hid.
  cbn [List.find].
  destruct (hasKey singular params).
  - cbn [falsy]. destruct singular as [|c s]; [contradiction|].
    cbn [Str.isEmpty default]. unfold addUsed, ret, identifierPath.
    destruct action; try discriminate; rewrite ?app_nil_r, ?app_assoc; reflexivity.
  - destruct (hasKey "id" params).
    + cbn [falsy Str.isEmpty default]. unfold addUsed, ret, identifierPath.
      destruct action; try discriminate; rewrite ?app_nil_r, ?app_assoc; reflexivity.
    + reflexivity.
Qed.


End Identifier.

(** C1, evaluated.  When the singular key is the empty string (here given as
    [resourceParam]; the resource "s" derives it too) and the parameters hold
    a value under it, the key is present and comes first, yet the call fails
    with the missing-identifier error, with or without "id" beside it: the
    test [!key] takes the found empty key for no key. *)
Theorem route_empty_singular_key_rejected :
  rfSingular emptyKeyRoute = "" /\
  rfSingular (createLaravelResourceResolver "s" noOptions) = "" /\
  hasKey "" (objectLiteral [("", VNum 42)]) = true /\
  route emptyKeyRoute "photos.show" (objectLiteral [("", VNum 42)])
  = Throw (MissingIdentifierParam "" Show) /\
  route emptyKeyRoute "photos.show" (objectLiteral [("", VNum 42); ("id", VNum 7)])
  = Throw (MissingIdentifierParam "" Show) /\
  route emptyKeyRoute "photos.show" (objectLiteral [("id", VNum 7)]) = Ok "/photos/7".
Proof. repeat split; vm_compute; reflexivity. Qed.

(** ** Used keys and the query string *)

Section QueryString.

Lemma pieces_nil : pieces "" = [].
Proof. reflexivity. Qed.

Lemma substituteAll_used params ps used s used' :
  substituteAll params ps used = Ok (s, used') ->
  forall k, k ∈ used' <-> k ∈ used \/ In (Placeholder k) ps.
Proof.
  revert used s used'. induction ps as [|p ps IH]; intros used s used'.
  - intros [= <- <-] k. simpl. tauto.
  - cbn [substituteAll]. unfold bind at 1.
    destruct (substitute params p used) as [[s1 u1]|e] eqn:E1; [|discriminate].
    unfold bind at 1.
    destruct (substituteAll params ps u1) as [[s2 u2]|e] eqn:E2; [|discriminate].
    intros [= <- <-] k. rewrite (IH _ _ _ E2 k). cbn [In].
    destruct p as [c|key]; cbn [substitute] in E1.
    + injection E1 as <- <-. split; [tauto|].
      intros [H|[H|H]]; [tauto|discriminate|tauto].
    + destruct (hasKey key params); [|discriminate].
      injection E1 as <- <-. rewrite elem_of_union, elem_of_singleton.
      split.
      * intros [[->|H]|H]; tauto.
      * intros [H|[[= ->]|H]]; tauto.
Qed.

Lemma replaceTokens_used template params used s used' :
  replaceTokens template params used = Ok (s, used') ->
  forall k, k ∈ used' <-> k ∈ used \/ In (Placeholder k) (pieces template).
Proof.
  unfold replaceTokens. destruct template as [|c t]; cbn [Str.isEmpty].
  - intros [= <- <-] k. rewrite pieces_nil. simpl. tauto.
  - unfold bind.
    unfold replacePlaceholders.
    destruct (substituteAll params (pieces (String c t)) used)
      as [[s1 u1]|e] eqn:E; [|discriminate].
    intros [= <- <-]. exact (substituteAll_used _ _ _ _ _ E).
Qed.

Lemma actionToPath_used action singular params used s used' :
  actionToPath action singular params used = Ok (s, used') ->
  forall k, k ∈ used' <->
            k ∈ used \/
            (needsId action = true /\ findKey [singular; "id"] params = Some k).
Proof.
  unfold actionToPath, bind.
  destruct (needsId action).
  - destruct (findKey [singular; "id"] params) as [key|]; [|discriminate].
    cbn [falsy default]. destruct (Str.isEmpty key); [discriminate|].
    intros [= <- <-] k. rewrite elem_of_union, elem_of_singleton.
    split.
    + intros [->|H]; tauto.
    + intros [H|[_ [= ->]]]; tauto.
  - intros [= <- <-] k. split; [tauto|]. intros [H|[H _]]; [tauto|discriminate].
Qed.

Lemma buildPath_used f action params path used :
  buildPath f action params ∅ = Ok (path, used) ->
  forall k, k ∈ used <->
            In (Placeholder k) (pieces (rfPrefix f)) \/
            (needsId action = true /\
             findKey [rfSingular f; "id"] params = Some k).
Proof.
  unfold buildPath. unfold bind at 1.
  destruct (replaceTokens (rfPrefix f) params ∅) as [[s1 u1]|e] eqn:E1;
    [|discriminate].
  unfold bind at 1.
  destruct (actionToPath action (rfSingular f) params u1) as [[s2 u2]|e] eqn:E2;
    [|discriminate].
  intros [= <- <-] k.
  rewrite (actionToPath_used _ _ _ _ _ _ E2 k), (replaceTokens_used _ _ _ _ _ E1 k).
  rewrite elem_of_empty. tauto.
Qed.

Lemma isEmpty_app_cons a c b : Str.isEmpty (a +:+ String c b) = false.
Proof. destruct a; reflexivity. Qed.





End QueryString.




(** ** Scanning the prefix template *)

Section Scanning.

(** The scanner, unfolded once. *)
Lemma pieces_cons c r :
  pieces (String c r) =
  match matchPlaceholder (String c r) with
  | Some (key, rest) => Placeholder key :: pieces rest
  | None => Lit c :: pieces r
  end.
Proof.
  rewrite pieces_equation_2.
  destruct (inspect (matchPlaceholder (String c r))) as [[[k rest]|] e];
    unfold pieces_unfold_clause_2; rewrite e; reflexivity.
Qed.

Lemma span_spec p s w r :
  Str.span p s = (w, r) -> s = w +:+ r /\ allChars p w = true.
Proof.
  revert w r. induction s as [|a s IH]; intros w r; simpl.
  - intros [= <- <-]. split; reflexivity.
  - destruct (p a) eqn:Ea.
    + destruct (Str.span p s) as [w' r'] eqn:E. intros [= <- <-].
      destruct (IH _ _ eq_refl) as [-> Hw]. split; [reflexivity|].
      simpl. rewrite Ea, Hw. reflexivity.
    + intros [= <- <-]. split; reflexivity.
Qed.

(** The span of word characters stops at the first other character. *)
Lemma span_stop p w c r :
  allChars p w = true -> p c = false ->
  Str.span p (w +:+ String c r) = (w, String c r).
Proof.
  intros Hw Hc. induction w as [|a w IH].
  - rewrite app_nil_l. simpl. rewrite Hc. reflexivity.
  - simpl in Hw. apply andb_prop in Hw as [Ha Hw].
    rewrite app_cons. simpl. rewrite Ha, (IH Hw). reflexivity.
Qed.

Lemma span_end p w : allChars p w = true -> Str.span p w = (w, "").
Proof.
  intros Hw. induction w as [|a w IH]; [reflexivity|].
  simpl in Hw. apply andb_prop in Hw as [Ha Hw].
  simpl. rewrite Ha, (IH Hw). reflexivity.
Qed.

Lemma span_app_fresh r rest :
  fresh rest ->
  Str.span is_word (r +:+ rest)
  = let '(w, r') := Str.span is_word r in (w, r' +:+ rest).
Proof.
  intros Hf. induction r as [|a r IH].
  - rewrite app_nil_l. destruct rest as [|c rest]; [reflexivity|].
    simpl in Hf. subst c. reflexivity.
  - rewrite app_cons. simpl. destruct (is_word a); [|reflexivity].
    rewrite IH. destruct (Str.span is_word r). reflexivity.
Qed.

Lemma matchPlaceholder_app_fresh c r rest :
  fresh rest ->
  matchPlaceholder (String c r +:+ rest)
  = match matchPlaceholder (String c r) with
    | Some (key, r') => Some (key, r' +:+ rest)
    | None => None
    end.
Proof.
  intros Hf. rewrite app_cons. unfold matchPlaceholder.
  destruct (Ascii.eqb c "{"); [|reflexivity].
  rewrite (span_app_fresh _ _ Hf).
  destruct (Str.span is_word r) as [w r'].
  destruct w as [|k ks]; [reflexivity|].
  destruct r' as [|b r'].
  - rewrite app_nil_l. destruct rest as [|d rest]; [reflexivity|].
    simpl in Hf. subst d. reflexivity.
  - rewrite app_cons. destruct (Ascii.eqb b "}"); reflexivity.
Qed.

(** Scanning a text followed by a fresh text scans the two in turn: no
    match straddles the boundary. *)
Lemma pieces_app_fresh s rest :
  fresh rest -> pieces (s +:+ rest) = (pieces s ++ pieces rest)%list.
Proof.
  intros Hf.
  remember (String.length s) as n eqn:Hn.
  revert s Hn. induction n as [n IH] using lt_wf_ind. intros s Hn.
  destruct s as [|c r]; [reflexivity|].
  rewrite pieces_cons.
  pose proof (matchPlaceholder_app_fresh c r rest Hf) as Hm.
  rewrite app_cons in Hm |- *. rewrite pieces_cons, Hm.
  destruct (matchPlaceholder (String c r)) as [[key r']|] eqn:E.
  - apply matchPlaceholder_shorter in E.
    rewrite (IH (String.length r')) by (subst n; auto). reflexivity.
  - rewrite (IH (String.length r)) by (subst n; simpl; auto). reflexivity.
Qed.

Lemma braced_cons k x : braced k +:+ x = String "{" (k +:+ String "}" x).
Proof. unfold braced. rewrite !app_assoc. reflexivity. Qed.

Lemma matchPlaceholder_braced k x :
  isName k = true -> matchPlaceholder (braced k +:+ x) = Some (k, x).
Proof.
  unfold isName. intros [Hne Hw]%andb_prop.
  rewrite braced_cons. unfold matchPlaceholder.
  rewrite Ascii.eqb_refl, (span_stop is_word k "}" x Hw eq_refl).
  destruct k as [|a k]; [discriminate|]. rewrite Ascii.eqb_refl. reflexivity.
Qed.

Lemma matchPlaceholder_inv s k rest :
  matchPlaceholder s = Some (k, rest) ->
  s = braced k +:+ rest /\ isName k = true.
Proof.
  destruct s as [|a s]; [discriminate|]. unfold matchPlaceholder.
  destruct (Ascii.eqb_spec a "{") as [->|]; [|discriminate].
  destruct (Str.span is_word s) as [w r] eqn:E.
  apply span_spec in E as [-> Hw].
  destruct w as [|c w]; [discriminate|].
  destruct r as [|b r]; [discriminate|].
  destruct (Ascii.eqb_spec b "}") as [->|]; [|discriminate].
  intros [= <- <-]. rewrite braced_cons. split; [reflexivity|].
  unfold isName. rewrite Hw. reflexivity.
Qed.

Lemma placeholderFree_tail c s : placeholderFree (String c s) -> placeholderFree s.
Proof.
  intros H pre k post Hk ->. apply (H (String c pre) k post Hk).
  rewrite app_cons. reflexivity.
Qed.

Lemma placeholderFree_nil : placeholderFree "".
Proof.
  intros pre k post _ H. symmetry in H.
  apply app_eq_nil in H as [_ H]. rewrite braced_cons in H. discriminate.
Qed.

(** A text without placeholder is scanned as its characters. *)
Lemma pieces_free s : placeholderFree s -> pieces s = lits s.
Proof.
  induction s as [|c s IH]; intros Hf; [reflexivity|].
  rewrite pieces_cons.
  destruct (matchPlaceholder (String c s)) as [[k rest]|] eqn:E.
  - apply matchPlaceholder_inv in E as [E Hk].
    destruct (Hf "" k rest Hk). rewrite app_nil_l. exact E.
  - cbn [lits]. rewrite (IH (placeholderFree_tail _ _ Hf)). reflexivity.
Qed.

Lemma fresh_renderHoles hs : fresh (renderHoles hs).
Proof. destruct hs as [|[k txt] hs]; [exact I|]. cbn [renderHoles]. rewrite braced_cons. reflexivity. Qed.

Lemma pieces_renderHoles hs :
  Forall (fun h => isName h.1 = true /\ placeholderFree h.2) hs ->
  pieces (renderHoles hs)
  = List.flat_map (fun h => Placeholder h.1 :: lits h.2) hs.
Proof.
  induction 1 as [|[k txt] hs [Hk Htxt] _ IH]; [reflexivity|].
  cbn [renderHoles List.flat_map fst snd] in *.
  pose proof (matchPlaceholder_braced k (txt +:+ renderHoles hs) Hk) as Hm.
  rewrite braced_cons in Hm |- *. rewrite pieces_cons, Hm.
  rewrite (pieces_app_fresh _ _ (fresh_renderHoles hs)), (pieces_free _ Htxt), IH.
  reflexivity.
Qed.

(** The scanner finds exactly the placeholders of a well-formed template. *)
Lemma pieces_render t :
  wellFormed t ->
  pieces (render t)
  = (lits t.1 ++ List.flat_map (fun h => Placeholder h.1 :: lits h.2) t.2)%list.
Proof.
  intros [H1 H2]. unfold render.
  rewrite (pieces_app_fresh _ _ (fresh_renderHoles _)), (pieces_free _ H1),
    (pieces_renderHoles _ H2).
  reflexivity.
Qed.

(** Every string is the rendering of a well-formed template. *)
Lemma template_exists s : exists t, wellFormed t /\ render t = s.
Proof.
  remember (String.length s) as n eqn:Hn.
  revert s Hn. induction n as [n IH] using lt_wf_ind. intros s Hn.
  destruct s as [|c r].
  { exists ("", []). split; [split; [apply placeholderFree_nil|constructor]|reflexivity]. }
  destruct (matchPlaceholder (String c r)) as [[k rest]|] eqn:E.
  - pose proof (matchPlaceholder_shorter _ _ _ E) as Hlt.
    apply matchPlaceholder_inv in E as [E Hk].
    destruct (IH (String.length rest) ltac:(subst n; exact Hlt) rest eq_refl)
      as ([t0 hs] & [H1 H2] & Hr).
    exists ("", (k, t0) :: hs). split.
    + split; [apply placeholderFree_nil|]. constructor; [split; assumption|assumption].
    + rewrite E, <- Hr. reflexivity.
  - destruct (IH (String.length r) ltac:(subst n; simpl; lia) r eq_refl)
      as ([t0 hs] & [H1 H2] & Hr).
    exists (String c t0, hs). split.
    + split; [|assumption]. cbn [fst].
      intros pre k post Hk Heq. destruct pre as [|d pre].
      * rewrite app_nil_l in Heq.
        assert (Hs : String c r = braced k +:+ (post +:+ renderHoles hs)).
        { rewrite <- Hr. unfold render. cbn [fst snd].
          rewrite <- app_assoc, <- Heq. reflexivity. }
        rewrite Hs, (matchPlaceholder_braced _ _ Hk) in E. discriminate.
      * rewrite app_cons in Heq. injection Heq as _ Heq.
        exact (H1 pre k post Hk Heq).
    + rewrite <- Hr. reflexivity.
Qed.

End Scanning.

(** ** Substituting the placeholders *)

Section Substitution.

Variable params : Params.

Lemma substituteAll_lits s used : substituteAll params (lits s) used = Ok (s, used).
Proof.
  induction s as [|a s IH]; [reflexivity|].
  cbn [lits substituteAll substitute]. unfold bind, ret in *. rewrite IH.
  reflexivity.
Qed.

Lemma substituteAll_app ps qs used :
  substituteAll params (ps ++ qs) used
  = (let* a := substituteAll params ps in
     let* b := substituteAll params qs in
     ret (a +:+ b)) used.
Proof.
  revert used. induction ps as [|p ps IH]; intros used.
  - cbn [app substituteAll]. unfold bind, ret.
    destruct (substituteAll params qs used) as [[b u]|e]; reflexivity.
  - cbn [app substituteAll]. unfold bind at 1 3 4.
    destruct (substitute params p used) as [[s1 u1]|e]; [|reflexivity].
    unfold bind at 1. rewrite IH. unfold bind, ret.
    destruct (substituteAll params ps u1) as [[s2 u2]|e]; [|reflexivity].
    destruct (substituteAll params qs u2) as [[s3 u3]|e]; [|reflexivity].
    rewrite app_assoc. reflexivity.
Qed.

Lemma lits_no_placeholder k s : ~ In (Placeholder k) (lits s).
Proof.
  induction s as [|a s IH]; simpl; [tauto|]. intros [H|H]; [discriminate|tauto].
Qed.

(** A text that scans as its characters holds no placeholder. *)
Lemma placeholderFree_check s : pieces s = lits s -> placeholderFree s.
Proof.
  intros Hs pre k post Hk ->.
  assert (Hf : fresh (braced k +:+ post)) by (rewrite braced_cons; reflexivity).
  rewrite (pieces_app_fresh _ _ Hf) in Hs.
  pose proof (matchPlaceholder_braced k post Hk) as Hm.
  rewrite braced_cons in Hs, Hm. rewrite pieces_cons, Hm in Hs.
  apply (lits_no_placeholder k (pre +:+ String "{" (k +:+ String "}" post))).
  rewrite <- Hs. apply in_or_app. right. left. reflexivity.
Qed.

Lemma substituteAll_holes hs used :
  Forall (fun k => hasKey k params = true) (List.map fst hs) ->
  substituteAll params
    (List.flat_map (fun h => Placeholder h.1 :: lits h.2) hs) used
  = Ok (fillHoles params hs, list_to_set (List.map fst hs) ∪ used).
Proof.
  revert used. induction hs as [|[k txt] hs IH]; intros used Hall.
  - cbn [List.flat_map substituteAll fillHoles List.map list_to_set].
    unfold ret. rewrite union_empty_l_L. reflexivity.
  - cbn [List.map fst] in Hall.
    inversion Hall as [|k' ks Hk Hall']; subst k' ks. clear Hall. rename Hall' into Hall.
    cbn [List.flat_map fst snd app substituteAll substitute].
    rewrite Hk. cbn [negb]. unfold bind at 1 2. unfold addUsed, ret at 1.
    unfold bind at 1. rewrite substituteAll_app. unfold bind at 1.
    rewrite substituteAll_lits. unfold bind at 1. rewrite (IH _ Hall).
    unfold ret. cbn [fillHoles List.map fst list_to_set].
    f_equal. f_equal. rewrite (assoc_L (∪)). f_equal. apply (comm_L (∪)).
Qed.

Lemma substituteAll_missing hs1 k txt hs2 used :
  Forall (fun k' => hasKey k' params = true) (List.map fst hs1) ->
  hasKey k params = false ->
  substituteAll params
    (List.flat_map (fun h => Placeholder h.1 :: lits h.2)
                   (hs1 ++ (k, txt) :: hs2)%list) used
  = Throw (MissingPrefixParam k).
Proof.
  intros Hall Hk. rewrite List.flat_map_app, substituteAll_app.
  unfold bind at 1. rewrite (substituteAll_holes _ _ Hall).
  cbn [List.flat_map fst snd app substituteAll substitute].
  rewrite Hk. reflexivity.
Qed.

Lemma render_holes_nonempty t0 hs1 h hs2 :
  Str.isEmpty (render (t0, (hs1 ++ h :: hs2)%list)) = false.
Proof.
  unfold render. cbn [fst snd].
  destruct hs1 as [|[k1 x1] hs1]; [destruct h as [k x]|];
    cbn [app renderHoles]; rewrite braced_cons; apply isEmpty_app_cons.
Qed.

(** Placeholders as the code replaces them.  Every prefix template is a text
    with placeholders [{name}] between texts.  Replacing the tokens puts,
    for each placeholder, the URL-component-encoded string of the parameter
    of that name in its place and adds the name to the used keys; the first
    placeholder whose name [in] does not find in the parameters, among their
    own or their inherited properties, makes it fail with the missing-prefix
    error naming it; the empty prefix, which is also the default of an
    absent one, gives the empty string and leaves the used keys as they
    are. *)
Theorem replaceTokens_placeholders used :
  replaceTokens "" params used = Ok ("", used) /\
  (forall resource opts,
      prefix opts = None ->
      rfPrefix (createLaravelResourceResolver resource opts) = "") /\
  (forall template, exists t, wellFormed t /\ render t = template) /\
  (forall t,
      wellFormed t -> render t <> "" ->
      Forall (fun k => hasKey k params = true) (holes t) ->
      replaceTokens (render t) params used
      = Ok (trimSlashes (fill params t), list_to_set (holes t) ∪ used)) /\
  (forall t0 hs1 k txt hs2,
      wellFormed (t0, (hs1 ++ (k, txt) :: hs2)%list) ->
      Forall (fun k' => hasKey k' params = true) (List.map fst hs1) ->
      hasKey k params = false ->
      replaceTokens (render (t0, (hs1 ++ (k, txt) :: hs2)%list)) params used
      = Throw (MissingPrefixParam k)).
Proof.
  split; [reflexivity|].
  split; [intros resource opts H; simpl; rewrite H; reflexivity|].
  split; [exact template_exists|].
  split.
  - intros t Hwf Hne Hall. unfold replaceTokens.
    destruct (render t) as [|c r] eqn:Er; [contradiction|].
    cbn [Str.isEmpty]. rewrite <- Er. unfold bind, replacePlaceholders.
    rewrite (pieces_render _ Hwf), substituteAll_app.
    unfold bind at 1. rewrite substituteAll_lits. unfold bind at 1.
    unfold holes in *. rewrite (substituteAll_holes _ _ Hall). reflexivity.
  - intros t0 hs1 k txt hs2 Hwf Hall Hk. unfold replaceTokens.
    rewrite render_holes_nonempty. unfold bind, replacePlaceholders.
    rewrite (pieces_render _ Hwf), substituteAll_app.
    unfold bind at 1. rewrite substituteAll_lits. unfold bind at 1.
    cbn [snd]. rewrite (substituteAll_missing _ _ _ _ _ Hall Hk). reflexivity.
Qed.

End Substitution.

Lemma replaceTokens_placeholders_witness :
  replaceTokens "/users/{user}/teams/{team}/"
    (objectLiteral [("user", VNum 7); ("team", VStr "a b")]) ∅
  = Ok ("users/7/teams/a%20b", list_to_set ["user"; "team"] ∪ ∅) /\
  replaceTokens "/users/{user}/teams/{team}/" (objectLiteral [("user", VNum 7)]) ∅
  = Throw (MissingPrefixParam "team").
Proof.
  assert (Hwf : wellFormed ("/users/", [("user", "/teams/"); ("team", "/")])).
  { split; [apply placeholderFree_check; vm_compute; reflexivity|].
    repeat constructor; apply placeholderFree_check; vm_compute; reflexivity. }
  split.
  - destruct (replaceTokens_placeholders
                (objectLiteral [("user", VNum 7); ("team", VStr "a b")]) ∅)
      as (_ & _ & _ & H & _).
    apply (H ("/users/", [("user", "/teams/"); ("team", "/")]) Hwf).
    + discriminate.
    + repeat constructor.
  - destruct (replaceTokens_placeholders (objectLiteral [("user", VNum 7)]) ∅)
      as (_ & _ & _ & _ & H).
    apply (H "/users/" [("user", "/teams/")] "team" "/" [] Hwf).
    + repeat constructor.
    + reflexivity.
Defined.

(** ** Braces that are not placeholders *)

Section BracedText.

Lemma span_nonword inner x :
  allChars is_word inner = false ->
  Str.contains "}" inner = false ->
  exists w c r, Str.span is_word (inner +:+ x) = (w, String c r) /\ c <> "}"%char.
Proof.
  induction inner as [|a inner IH]; [discriminate|].
  cbn [allChars Str.contains]. intros Hw [Ha Hc]%orb_false_elim.
  rewrite app_cons. cbn [Str.span].
  destruct (is_word a) eqn:Ea.
  - destruct (IH Hw Hc) as (w & c & r & -> & Hne). eauto.
  - exists "", a, (inner +:+ x). split; [reflexivity|].
    intros ->. rewrite Ascii.eqb_refl in Ha. discriminate.
Qed.

Lemma matchPlaceholder_not_name inner x :
  allChars is_word inner = false ->
  Str.contains "}" inner = false ->
  matchPlaceholder (braced inner +:+ x) = None.
Proof.
  intros Hw Hc. rewrite braced_cons. unfold matchPlaceholder.
  rewrite Ascii.eqb_refl.
  destruct (span_nonword inner (String "}" x) Hw Hc) as (w & c & r & -> & Hne).
  destruct w; [reflexivity|].
  destruct (Ascii.eqb_spec c "}"); [contradiction|reflexivity].
Qed.

(** A text without opening brace is scanned as its characters, whatever
    follows it. *)
Lemma pieces_no_open s rest :
  Str.contains "{" s = false -> pieces (s +:+ rest) = (lits s ++ pieces rest)%list.
Proof.
  induction s as [|a s IH]; [reflexivity|].
  cbn [Str.contains]. intros [Ha Hs]%orb_false_elim.
  rewrite app_cons, pieces_cons. unfold matchPlaceholder. rewrite Ha.
  cbn [lits app]. rewrite (IH Hs). reflexivity.
Qed.

Lemma contains_app c s t :
  Str.contains c (s +:+ t) = Str.contains c s || Str.contains c t.
Proof.
  induction s as [|a s IH]; [reflexivity|].
  rewrite app_cons. cbn [Str.contains]. rewrite IH, orb_assoc. reflexivity.
Qed.

Lemma pieces_braced_text inner post :
  allChars is_word inner = false ->
  Str.contains "{" inner = false ->
  Str.contains "}" inner = false ->
  pieces (braced inner +:+ post) = (lits (braced inner) ++ pieces post)%list.
Proof.
  intros Hw Ho Hc.
  pose proof (matchPlaceholder_not_name inner post Hw Hc) as Hm.
  rewrite braced_cons in Hm |- *. rewrite pieces_cons, Hm.
  unfold braced. cbn [lits app].
  change (String "}" post) with ("}" +:+ post). rewrite <- app_assoc.
  rewrite pieces_no_open; [reflexivity|].
  rewrite contains_app, Ho. reflexivity.
Qed.

Lemma replacePlaceholders_braced_text params inner pre post used :
  allChars is_word inner = false ->
  Str.contains "{" inner = false ->
  Str.contains "}" inner = false ->
  replacePlaceholders (pre +:+ braced inner +:+ post) params used
  = (let* a := replacePlaceholders pre params in
     let* b := replacePlaceholders post params in
     ret (a +:+ braced inner +:+ b)) used.
Proof.
  intros Hw Ho Hc. unfold replacePlaceholders.
  assert (Hf : fresh (braced inner +:+ post)) by (rewrite braced_cons; reflexivity).
  rewrite (pieces_app_fresh _ _ Hf), (pieces_braced_text _ _ Hw Ho Hc).
  rewrite substituteAll_app. unfold bind at 1 3.
  destruct (substituteAll params (pieces pre) used) as [[a u]|e]; [|reflexivity].
  unfold bind at 1. rewrite substituteAll_app. unfold bind at 1.
  rewrite substituteAll_lits. unfold bind, ret.
  destruct (substituteAll params (pieces post) u) as [[b u']|e]; reflexivity.
Qed.

End BracedText.

(** ** Occurrences kept by trimming, joining and collapsing *)

Section Occurrences.

Lemma occursIn_here t y : occursIn t (t +:+ y).
Proof. exists "", y. reflexivity. Qed.

Lemma occursIn_app_l t s z : occursIn t s -> occursIn t (s +:+ z).
Proof.
  intros (x & y & ->). exists x, (y +:+ z). rewrite !app_assoc. reflexivity.
Qed.

Lemma occursIn_app_r t s z : occursIn t s -> occursIn t (z +:+ s).
Proof.
  intros (x & y & ->). exists (z +:+ x), y. rewrite !app_assoc. reflexivity.
Qed.

Lemma occursIn_cons t s a : occursIn t s -> occursIn t (String a s).
Proof. intros H. apply (occursIn_app_r t s (String a "") H). Qed.

Lemma occursIn_concat t sep q l :
  In q l -> occursIn t q -> occursIn t (String.concat sep l).
Proof.
  intros Hin Ht. induction l as [|h l IH]; [destruct Hin|].
  cbn [String.concat]. destruct Hin as [->|Hin].
  - destruct l; [exact Ht|]. apply occursIn_app_l, Ht.
  - destruct l as [|h' l]; [destruct Hin|].
    apply occursIn_app_r, occursIn_app_r, IH, Hin.
Qed.

Lemma startsWith_app t y : Str.startsWith (t +:+ y) t = true.
Proof.
  induction t as [|a t IH]; [reflexivity|].
  rewrite app_cons. cbn [Str.startsWith]. rewrite Ascii.eqb_refl, IH. reflexivity.
Qed.

Lemma includes_occursIn t s : occursIn t s -> Str.includes s t = true.
Proof.
  intros (x & y & ->). induction x as [|a x IH].
  - rewrite app_nil_l. destruct (t +:+ y) eqn:E; cbn [Str.includes];
      rewrite <- E, startsWith_app; reflexivity.
  - rewrite app_cons. cbn [Str.includes]. rewrite IH. apply orb_true_r.
Qed.

Lemma dropTrailing_app_ne c s a r :
  a <> c ->
  Str.dropTrailing c (s +:+ String a r) = s +:+ String a (Str.dropTrailing c r).
Proof.
  intros Hne. induction s as [|b s IH].
  - rewrite !app_nil_l. cbn [Str.dropTrailing].
    destruct (Ascii.eqb_spec a c); [contradiction|].
    destruct (Str.dropTrailing c r); reflexivity.
  - rewrite !app_cons. cbn [Str.dropTrailing]. rewrite IH.
    destruct s; reflexivity.
Qed.

Variable inner : string.

Lemma dropLeading_keeps s :
  occursIn (braced inner) s -> occursIn (braced inner) (Str.dropLeading "/" s).
Proof.
  intros (x & y & ->). induction x as [|a x IH].
  - rewrite app_nil_l, braced_cons. cbn [Str.dropLeading].
    change (Ascii.eqb "{" "/") with false. cbv iota.
    rewrite <- braced_cons. apply occursIn_here.
  - rewrite app_cons. cbn [Str.dropLeading].
    destruct (Ascii.eqb a "/"); [exact IH|].
    rewrite <- app_cons. exists (String a x), y. reflexivity.
Qed.

Lemma dropTrailing_keeps s :
  occursIn (braced inner) s -> occursIn (braced inner) (Str.dropTrailing "/" s).
Proof.
  intros (x & y & ->). rewrite braced_cons.
  change (x +:+ String "{" (inner +:+ String "}" y))
    with (x +:+ (String "{" inner) +:+ String "}" y).
  rewrite <- app_assoc, dropTrailing_app_ne by discriminate.
  exists x, (Str.dropTrailing "/" y). rewrite braced_cons, app_assoc. reflexivity.
Qed.

Lemma trimSlashes_keeps s :
  occursIn (braced inner) s -> occursIn (braced inner) (trimSlashes s).
Proof. intros H. apply dropTrailing_keeps, dropLeading_keeps, H. Qed.

Lemma collapseSlashes_cons_ne a r :
  a <> "/"%char -> collapseSlashes (String a r) = String a (collapseSlashes r).
Proof.
  intros Hne. destruct r as [|b r]; [reflexivity|].
  cbn [collapseSlashes]. destruct (Ascii.eqb_spec a "/"); [contradiction|].
  reflexivity.
Qed.

Lemma collapseSlashes_app_ne s a r :
  a <> "/"%char ->
  exists s', collapseSlashes (s +:+ String a r) = s' +:+ String a (collapseSlashes r).
Proof.
  intros Hne. induction s as [|b s IH].
  - exists "". rewrite !app_nil_l. apply collapseSlashes_cons_ne, Hne.
  - destruct IH as [s' IH]. rewrite app_cons.
    destruct (s +:+ String a r) as [|d u] eqn:E.
    { destruct s; discriminate. }
    cbn [collapseSlashes] in *.
    destruct (Ascii.eqb b "/" && Ascii.eqb d "/").
    + exists s'. exact IH.
    + exists (String b s'). rewrite IH. reflexivity.
Qed.

Lemma collapseSlashes_clean s a r :
  Str.includes s "//" = false -> a <> "/"%char ->
  collapseSlashes (s +:+ String a r) = s +:+ String a (collapseSlashes r).
Proof.
  intros Hs Hne. induction s as [|b s IH].
  - rewrite !app_nil_l. apply collapseSlashes_cons_ne, Hne.
  - cbn [Str.includes] in Hs. apply orb_false_elim in Hs as [Hb Hs].
    specialize (IH Hs). rewrite !app_cons.
    destruct s as [|d s].
    + rewrite app_nil_l in *.
      change (collapseSlashes (String b (String a r)))
        with (if Ascii.eqb b "/" && Ascii.eqb a "/"
              then collapseSlashes (String a r)
              else String b (collapseSlashes (String a r))).
      destruct (Ascii.eqb_spec a "/"); [contradiction|].
      rewrite andb_false_r, collapseSlashes_cons_ne by assumption.
      reflexivity.
    + rewrite app_cons in *. rewrite startsWith_double_slash in Hb.
      change (collapseSlashes (String b (String d (s +:+ String a r))))
        with (if Ascii.eqb b "/" && Ascii.eqb d "/"
              then collapseSlashes (String d (s +:+ String a r))
              else String b (collapseSlashes (String d (s +:+ String a r)))).
      rewrite Hb, IH. reflexivity.
Qed.

Hypothesis inner_clean : Str.includes inner "//" = false.

Lemma collapseSlashes_keeps s :
  occursIn (braced inner) s -> occursIn (braced inner) (collapseSlashes s).
Proof.
  intros (x & y & ->). rewrite braced_cons.
  destruct (collapseSlashes_app_ne x "{" (inner +:+ String "}" y)) as [x' ->];
    [discriminate|].
  rewrite collapseSlashes_clean by (assumption || discriminate).
  exists x', (collapseSlashes y). rewrite braced_cons. reflexivity.
Qed.

Lemma occursIn_nonempty s : occursIn (braced inner) s -> Str.isEmpty s = false.
Proof. intros (x & y & ->). rewrite braced_cons. apply isEmpty_app_cons. Qed.

Lemma joinUrl_keeps p parts :
  In p parts -> occursIn (braced inner) p -> occursIn (braced inner) (joinUrl parts).
Proof.
  intros Hin Hp. unfold joinUrl. apply collapseSlashes_keeps.
  assert (Hj : occursIn (braced inner)
                 (Str.join "/" (List.map trimSlashes
                    (List.filter (fun p => negb (Str.isEmpty p)) parts)))).
  { apply (occursIn_concat _ _ (trimSlashes p)); [|apply trimSlashes_keeps, Hp].
    apply List.in_map, List.filter_In. split; [exact Hin|].
    rewrite (occursIn_nonempty _ Hp). reflexivity. }
  destruct (negb _ && negb _); [apply occursIn_app_r|]; exact Hj.
Qed.

End Occurrences.

Section BracedTextInUrl.

Variable params : Params.
Variables inner pre post : string.
Hypothesis not_name : allChars is_word inner = false.
Hypothesis no_open : Str.contains "{" inner = false.
Hypothesis no_close : Str.contains "}" inner = false.

Lemma replaceTokens_braced_text used s used' :
  replaceTokens (pre +:+ braced inner +:+ post) params used = Ok (s, used') ->
  occursIn (braced inner) s.
Proof.
  unfold replaceTokens.
  rewrite (occursIn_nonempty inner _ (ex_intro _ pre (ex_intro _ post eq_refl))).
  unfold bind at 1.
  rewrite replacePlaceholders_braced_text by assumption. unfold bind, ret.
  destruct (replacePlaceholders pre params used) as [[a u]|e]; [|discriminate].
  destruct (replacePlaceholders post params u) as [[b u']|e]; [|discriminate].
  intros [= <- <-]. apply trimSlashes_keeps. exists a, b. reflexivity.
Qed.

Lemma buildPath_braced_text f action path used :
  rfPrefix f = pre +:+ braced inner +:+ post ->
  Str.includes inner "//" = false ->
  buildPath f action params ∅ = Ok (path, used) ->
  occursIn (braced inner) path.
Proof.
  intros Hp Hclean. unfold buildPath. rewrite Hp. unfold bind at 1.
  destruct (replaceTokens _ params ∅) as [[prefixPath u1]|e] eqn:E1; [|discriminate].
  apply replaceTokens_braced_text in E1.
  unfold bind at 1.
  destruct (actionToPath action (rfSingular f) params u1) as [[rel u2]|e];
    [|discriminate].
  unfold ret. intros [= <- <-].
  assert (Hu : occursIn (braced inner)
                 (joinUrl [rfBaseUrl f; prefixPath;
                           "/" +:+ trimSlashes (rfResource f); rel])).
  { apply (joinUrl_keeps inner Hclean prefixPath); [|exact E1].
    right. left. reflexivity. }
  destruct (rfTrailingSlash f && _); [apply occursIn_app_l|]; exact Hu.
Qed.

(** C9, as the code has it.  A token [{inner}] whose inner text holds a
    character that is not a word character, and no brace, is not a
    placeholder wherever it stands in the prefix: the replacement is that of
    the text before it and of the text after it, around the token itself, so
    the token causes no lookup, no failure and no used key, and it stands
    verbatim in the substituted prefix.  It stands verbatim in the URL too
    when its inner text has no two slashes in a row; joining collapses such
    runs. *)
Theorem braced_text_not_placeholder :
  (forall used,
      replacePlaceholders (pre +:+ braced inner +:+ post) params used
      = (let* a := replacePlaceholders pre params in
         let* b := replacePlaceholders post params in
         ret (a +:+ braced inner +:+ b)) used) /\
  (forall used s used',
      replaceTokens (pre +:+ braced inner +:+ post) params used = Ok (s, used') ->
      occursIn (braced inner) s) /\
  (forall f name url,
      rfPrefix f = pre +:+ braced inner +:+ post ->
      Str.includes inner "//" = false ->
      route f name params = Ok url ->
      Str.includes url (braced inner) = true).
Proof.
  split; [intros used; apply replacePlaceholders_braced_text; assumption|].
  split; [exact replaceTokens_braced_text|].
  intros f name url Hp Hclean. rewrite route_segments. cbv zeta.
  destruct (negb _); [discriminate|].
  destruct (isValidAction _) as [action|]; [|discriminate].
  unfold resolve.
  destruct (buildPath f action params ∅) as [[path used]|e] eqn:E; [|discriminate].
  intros [= <-]. apply includes_occursIn.
  apply (buildPath_braced_text _ _ _ _ Hp Hclean) in E.
  destruct (negb _); [apply occursIn_app_l|]; exact E.
Qed.

End BracedTextInUrl.

Lemma braced_text_not_placeholder_witness :
  replaceTokens "/users/{user-id}/x" noParams ∅ = Ok ("users/{user-id}/x", ∅) /\
  Str.includes "/users/{user-id}/x/photos" "{user-id}" = true.
Proof.
  destruct (braced_text_not_placeholder noParams "user-id" "/users/" "/x"
              eq_refl eq_refl eq_refl) as (_ & _ & H).
  split; [vm_compute; reflexivity|].
  apply (H (createLaravelResourceResolver "photos"
              {| prefix := Some "/users/{user-id}/x"; resourceParam := None;
                 trailingSlash := None; baseUrl := None |})
           "photos.index" "/users/{user-id}/x/photos");
    reflexivity.
Defined.

(** C9 as stated fails: the inner text of [{a//b}] holds the character "/",
    which is no word character, yet the token is not left verbatim in the
    URL, where it reads [{a/b}].  Likewise a token whose inner text holds
    a brace can hold a placeholder: [{a-{b}] makes the call look up "b". *)
Lemma route_braced_slashes_collapsed :
  allChars is_word "a//b" = false /\
  route (createLaravelResourceResolver "photos"
           {| prefix := Some "/x/{a//b}"; resourceParam := None;
              trailingSlash := None; baseUrl := None |})
        "photos.index" noParams
  = Ok "/x/{a/b}/photos" /\
  Str.includes "/x/{a/b}/photos" "{a//b}" = false /\
  route (createLaravelResourceResolver "photos"
           {| prefix := Some "/x/{a-{b}"; resourceParam := None;
              trailingSlash := None; baseUrl := None |})
        "photos.index" noParams
  = Throw (MissingPrefixParam "b").
Proof. repeat split; vm_compute; reflexivity. Qed.

(** * Further properties of the helpers *)

(** ** Trimming *)

Section Trimming.

Lemma dropLeading_not_leading c s :
  Str.startsWith (Str.dropLeading c s) (String c "") = false.
Proof.
  induction s as [|a s IH]; [reflexivity|].
  cbn [Str.dropLeading]. destruct (Ascii.eqb a c) eqn:E; [exact IH|].
  cbn [Str.startsWith]. rewrite E. reflexivity.
Qed.

Lemma dropLeading_id c s :
  Str.startsWith s (String c "") = false -> Str.dropLeading c s = s.
Proof.
  destruct s as [|a s]; [reflexivity|].
  cbn [Str.startsWith Str.dropLeading]. rewrite andb_true_r. intros ->.
  reflexivity.
Qed.

Lemma dropLeading_split c s :
  exists a, s = a +:+ Str.dropLeading c s /\ allChars (fun x => Ascii.eqb x c) a = true.
Proof.
  induction s as [|x s IH]; [exists ""; split; reflexivity|].
  cbn [Str.dropLeading]. destruct (Ascii.eqb x c) eqn:E.
  - destruct IH as (a & Hs & Ha). exists (String x a). split.
    + rewrite app_cons, <- Hs. reflexivity.
    + cbn [allChars]. rewrite E, Ha. reflexivity.
  - exists "". split; reflexivity.
Qed.

Lemma dropTrailing_cons_ne c a r :
  a <> c -> Str.dropTrailing c (String a r) = String a (Str.dropTrailing c r).
Proof. intros H. exact (dropTrailing_app_ne c "" a r H). Qed.

Lemma dropTrailing_not_trailing c s : ~ endsIn (Str.dropTrailing c s) (String c "").
Proof.
  induction s as [|a s IH]; intros [p Hp].
  - cbn in Hp. destruct p; discriminate.
  - cbn [Str.dropTrailing] in Hp.
    destruct (Str.dropTrailing c s) as [|b r'] eqn:E.
    + destruct (Ascii.eqb_spec a c) as [->|Hne].
      * destruct p; discriminate.
      * destruct p as [|x p]; [injection Hp as Hp; contradiction|].
        rewrite app_cons in Hp. injection Hp as _ Hp. destruct p; discriminate.
    + destruct p as [|x p]; [discriminate|].
      rewrite app_cons in Hp. injection Hp as _ Hp.
      apply IH. exists p. exact Hp.
Qed.

Lemma dropTrailing_id c s :
  ~ endsIn s (String c "") -> Str.dropTrailing c s = s.
Proof.
  induction s as [|a s IH]; intros H; [reflexivity|].
  cbn [Str.dropTrailing]. destruct s as [|b s].
  - cbn. destruct (Ascii.eqb_spec a c) as [->|]; [|reflexivity].
    destruct H. exists "". reflexivity.
  - rewrite IH; [reflexivity|].
    intros [p Hp]. apply H. exists (String a p). rewrite app_cons, <- Hp.
    reflexivity.
Qed.

Lemma dropTrailing_split c s :
  exists b, s = Str.dropTrailing c s +:+ b /\ allChars (fun x => Ascii.eqb x c) b = true.
Proof.
  induction s as [|x s IH]; [exists ""; split; reflexivity|].
  destruct IH as (b & Hs & Hb). cbn [Str.dropTrailing].
  destruct (Str.dropTrailing c s) as [|y r] eqn:E.
  - rewrite app_nil_l in Hs. subst b.
    destruct (Ascii.eqb x c) eqn:Ex.
    + exists (String x s). split; [reflexivity|]. cbn [allChars].
      rewrite Ex, Hb. reflexivity.
    + exists s. split; [reflexivity|exact Hb].
  - exists b. split; [|exact Hb]. rewrite app_cons, <- Hs. reflexivity.
Qed.

Lemma dropTrailing_keeps_head c s :
  Str.startsWith s (String c "") = false ->
  Str.startsWith (Str.dropTrailing c s) (String c "") = false.
Proof.
  destruct s as [|a s]; [reflexivity|].
  cbn [Str.startsWith]. rewrite andb_true_r. intros E.
  rewrite dropTrailing_cons_ne by (intros ->; rewrite Ascii.eqb_refl in E; discriminate).
  cbn [Str.startsWith]. rewrite E. reflexivity.
Qed.

Lemma endsWith_false s suf : ~ endsIn s suf -> Str.endsWith s suf = false.
Proof.
  intros H. destruct (Str.endsWith s suf) eqn:E; [|reflexivity].
  destruct H. apply endsWith_inv, E.
Qed.

Lemma trimSlashes_id s :
  Str.startsWith s "/" = false -> ~ endsIn s "/" -> trimSlashes s = s.
Proof.
  intros H1 H2. unfold trimSlashes.
  rewrite (dropLeading_id "/" s H1). apply dropTrailing_id, H2.
Qed.

(** [trimSlashes] removes a run of slashes at each end and nothing else: the
    result neither begins nor ends with a slash, the input is the result
    between two runs of slashes, and trimming again changes nothing. *)
Theorem trimSlashes_outer_slashes s :
  Str.startsWith (trimSlashes s) "/" = false /\
  Str.endsWith (trimSlashes s) "/" = false /\
  (exists a b, s = a +:+ trimSlashes s +:+ b /\
               allChars isSlash a = true /\ allChars isSlash b = true) /\
  trimSlashes (trimSlashes s) = trimSlashes s.
Proof.
  assert (H1 : Str.startsWith (trimSlashes s) "/" = false).
  { apply dropTrailing_keeps_head, dropLeading_not_leading. }
  assert (H2 : ~ endsIn (trimSlashes s) "/") by apply dropTrailing_not_trailing.
  split; [exact H1|]. split; [apply endsWith_false, H2|]. split.
  - destruct (dropLeading_split "/" s) as (a & Ha & Hsa).
    destruct (dropTrailing_split "/" (Str.dropLeading "/" s)) as (b & Hb & Hsb).
    exists a, b. split; [|split; assumption].
    unfold trimSlashes. rewrite <- Hb. exact Ha.
  - apply trimSlashes_id; assumption.
Qed.

End Trimming.

(** ** Collapsing and joining *)

Section Collapsing.

Lemma collapseSlashes_id s :
  Str.includes s "//" = false -> collapseSlashes s = s.
Proof.
  induction s as [|a s IH]; [reflexivity|].
  cbn [Str.includes]. intros [Ha Hs]%orb_false_elim.
  destruct s as [|b s]; [reflexivity|].
  rewrite startsWith_double_slash in Ha.
  change (collapseSlashes (String a (String b s)))
    with (if Ascii.eqb a "/" && Ascii.eqb b "/"
          then collapseSlashes (String b s)
          else String a (collapseSlashes (String b s))).
  rewrite Ha, (IH Hs). reflexivity.
Qed.

(** A string without two slashes in a row passes [collapseSlashes]
    unchanged, and collapsing twice is collapsing once. *)
Theorem collapseSlashes_stable s :
  (Str.includes s "//" = false -> collapseSlashes s = s) /\
  collapseSlashes (collapseSlashes s) = collapseSlashes s.
Proof.
  split; [apply collapseSlashes_id|].
  apply collapseSlashes_id, collapseSlashes_no_double.
Qed.

Lemma collapseSlashes_stable_witness :
  collapseSlashes "/users/7/photos" = "/users/7/photos".
Proof.
  destruct (collapseSlashes_stable "/users/7/photos") as [H _].
  apply H. reflexivity.
Defined.

Lemma startsWith_inv s p : Str.startsWith s p = true -> exists r, s = p +:+ r.
Proof.
  revert s. induction p as [|b p IH]; intros s H; [exists s; reflexivity|].
  destruct s as [|a s]; [discriminate|]. cbn [Str.startsWith] in H.
  apply andb_prop in H as [Hab H]. apply Ascii.eqb_eq in Hab as ->.
  destruct (IH _ H) as [r ->]. exists r. reflexivity.
Qed.

Lemma collapseSlashes_keeps_slash s :
  Str.startsWith s "/" = true -> Str.startsWith (collapseSlashes s) "/" = true.
Proof.
  intros H. apply startsWith_inv in H as [r ->].
  change ("/" +:+ r) with (String "/" r).
  destruct (collapseSlashes_head "/" r) as [r' ->]. reflexivity.
Qed.

Lemma collapseSlashes_keeps_http s :
  Str.startsWith s "http" = true -> Str.startsWith (collapseSlashes s) "http" = true.
Proof.
  intros H. apply startsWith_inv in H as [r ->].
  change ("http" +:+ r) with (String "h" (String "t" (String "t" (String "p" r)))).
  rewrite !collapseSlashes_cons_ne by discriminate. reflexivity.
Qed.

(** Whatever the parts, the joined URL begins with "http" or with a slash. *)
Theorem joinUrl_leading parts :
  Str.startsWith (joinUrl parts) "http" || Str.startsWith (joinUrl parts) "/" = true.
Proof.
  unfold joinUrl. cbv zeta.
  set (path := Str.join "/" _).
  destruct (Str.startsWith path "http") eqn:E1.
  - cbn [negb andb]. rewrite (collapseSlashes_keeps_http _ E1). reflexivity.
  - destruct (Str.startsWith path "/") eqn:E2; cbn [negb andb].
    + rewrite (collapseSlashes_keeps_slash _ E2). apply orb_true_r.
    + rewrite (collapseSlashes_keeps_slash ("/" +:+ path) eq_refl).
      apply orb_true_r.
Qed.

End Collapsing.

(** ** What the encoders can produce *)

Section Encoding.

Lemma allChars_app p s t :
  allChars p (s +:+ t) = allChars p s && allChars p t.
Proof.
  induction s as [|a s IH]; [reflexivity|].
  rewrite app_cons. cbn [allChars]. rewrite IH, andb_assoc. reflexivity.
Qed.

Lemma allChars_encode_with p enc s :
  (forall c, allChars p (enc c) = true) -> allChars p (encode_with enc s) = true.
Proof.
  intros H. induction s as [|a s IH]; [reflexivity|].
  cbn [encode_with]. rewrite allChars_app, H, IH. reflexivity.
Qed.

Lemma allChars_concat p sep l :
  allChars p sep = true -> Forall (fun s => allChars p s = true) l ->
  allChars p (String.concat sep l) = true.
Proof.
  intros Hsep. induction 1 as [|x l Hx Hl IH]; [reflexivity|].
  cbn [String.concat]. destruct l; [exact Hx|].
  rewrite !allChars_app, Hx, Hsep, IH. reflexivity.
Qed.

Lemma allChars_contains p c s :
  allChars p s = true -> p c = false -> Str.contains c s = false.
Proof.
  intros Hs Hc. induction s as [|a s IH]; [reflexivity|].
  cbn [allChars] in Hs. apply andb_prop in Hs as [Ha Hs].
  cbn [Str.contains]. rewrite (IH Hs), orb_false_r.
  destruct (Ascii.eqb_spec a c) as [->|]; [congruence|reflexivity].
Qed.

Lemma percent_uriSafe c : allChars uriSafe (percent c) = true.
Proof. destruct c as [[] [] [] [] [] [] [] []]; vm_compute; reflexivity. Qed.

Lemma percent_querySafe c : allChars querySafe (percent c) = true.
Proof. destruct c as [[] [] [] [] [] [] [] []]; vm_compute; reflexivity. Qed.

Lemma encodeURIComponent_uriSafe s : allChars uriSafe (encodeURIComponent s) = true.
Proof.
  apply allChars_encode_with. intros c.
  destruct (uri_unreserved c) eqn:E; [|apply percent_uriSafe].
  cbn [allChars]. unfold uriSafe. rewrite E. reflexivity.
Qed.

Lemma formEncode_querySafe s : allChars querySafe (formEncode s) = true.
Proof.
  apply allChars_encode_with. intros c.
  destruct (form_unreserved c) eqn:E.
  - cbn [allChars]. unfold querySafe. rewrite E. reflexivity.
  - destruct (Ascii.eqb c " "); [reflexivity|apply percent_querySafe].
Qed.

Lemma uspToString_querySafe usp : allChars querySafe (uspToString usp) = true.
Proof.
  unfold uspToString, Str.join. apply allChars_concat; [reflexivity|].
  apply List.Forall_map, List.Forall_forall. intros p _.
  rewrite !allChars_app, !formEncode_querySafe. reflexivity.
Qed.

Lemma buildQueryString_querySafe params used :
  allChars querySafe (buildQueryString params used) = true.
Proof.
  unfold buildQueryString. destruct (unusedEntries params used); [reflexivity|].
  apply uspToString_querySafe.
Qed.

(** The segment an identifier-bound action puts after the resource is a
    slash, the encoded identifier and, for edit, "/edit"; the encoded
    identifier is made of unreserved characters and percent escapes only, so
    it holds no "/", "?" or "#" whatever the parameter holds. *)
Theorem actionToPath_identifier_encoded action singular params used rel used' :
  needsId action = true ->
  actionToPath action singular params used = Ok (rel, used') ->
  exists seg,
    rel = "/" +:+ seg +:+ match action with Edit => "/edit" | _ => "" end /\
    allChars uriSafe seg = true /\
    Str.contains "/" seg = false /\ Str.contains "?" seg = false /\
    Str.contains "#" seg = false.
Proof.
  intros Hid. unfold actionToPath, bind. rewrite Hid.
  destruct (falsy (findKey [singular; "id"] params)); [discriminate|].
  set (k := default "" (findKey [singular; "id"] params)).
  unfold addUsed, ret. intros H.
  exists (encodeURIComponent (toStr (getParam k params))).
  pose proof (encodeURIComponent_uriSafe (toStr (getParam k params))) as Hs.
  split; [|split; [exact Hs|repeat split; apply (allChars_contains _ _ _ Hs); reflexivity]].
  destruct action; try discriminate; injection H as <- _;
    rewrite ?app_nil_r, ?app_assoc; reflexivity.
Qed.

Lemma actionToPath_identifier_encoded_witness :
  exists seg,
    "/a%2Fb/edit" = "/" +:+ seg +:+ "/edit" /\
    allChars uriSafe seg = true /\
    Str.contains "/" seg = false /\ Str.contains "?" seg = false /\
    Str.contains "#" seg = false.
Proof.
  exact (actionToPath_identifier_encoded Edit "photo" (objectLiteral [("photo", VStr "a/b")]) ∅
           "/a%2Fb/edit" ({["photo"]} ∪ ∅) eq_refl eq_refl).
Defined.

(** The query string is made of letters, digits and the characters
    [* - . _ % + = &] only: it never holds "?", "#", "/" or a space,
    whatever the keys and values are. *)
Theorem buildQueryString_characters params used :
  allChars querySafe (buildQueryString params used) = true /\
  Str.contains "?" (buildQueryString params used) = false /\
  Str.contains "#" (buildQueryString params used) = false /\
  Str.contains "/" (buildQueryString params used) = false /\
  Str.contains " " (buildQueryString params used) = false.
Proof.
  pose proof (buildQueryString_querySafe params used) as H.
  split; [exact H|]. repeat split; apply (allChars_contains _ _ _ H); reflexivity.
Qed.

End Encoding.

(** ** Slashes in the resolved URL *)

Section UrlSlashes.

Lemma startsWith_double_slash_cons a t :
  Str.startsWith (String a t) "//" = Ascii.eqb a "/" && Str.startsWith t "/".
Proof. reflexivity. Qed.

Lemma contains_no_double t :
  Str.contains "/" t = false -> Str.includes t "//" = false.
Proof.
  induction t as [|a t IH]; [reflexivity|].
  cbn [Str.contains]. intros [Ha Ht]%orb_false_elim.
  cbn [Str.includes]. rewrite startsWith_double_slash_cons, Ha, (IH Ht).
  reflexivity.
Qed.

Lemma no_double_app s t :
  Str.includes s "//" = false ->
  Str.includes t "//" = false ->
  (endsIn s "/" -> Str.startsWith t "/" = false) ->
  Str.includes (s +:+ t) "//" = false.
Proof.
  induction s as [|a s IH]; intros Hs Ht Hb; [exact Ht|].
  cbn [Str.includes] in Hs. apply orb_false_elim in Hs as [Ha Hs].
  rewrite app_cons. cbn [Str.includes].
  rewrite IH; [|exact Hs|exact Ht|].
  - rewrite orb_false_r. destruct s as [|b s].
    + rewrite app_nil_l, startsWith_double_slash_cons.
      destruct (Ascii.eqb_spec a "/") as [->|]; [|reflexivity].
      apply Hb. exists "". reflexivity.
    + rewrite app_cons, startsWith_double_slash.
      rewrite startsWith_double_slash in Ha. exact Ha.
  - intros [p Hp]. apply Hb. exists (String a p). rewrite app_cons, <- Hp.
    reflexivity.
Qed.

Lemma buildPath_no_double f action params used0 path used :
  buildPath f action params used0 = Ok (path, used) ->
  Str.includes path "//" = false.
Proof.
  unfold buildPath. unfold bind at 1.
  destruct (replaceTokens (rfPrefix f) params used0) as [[prefixPath u1]|e];
    [|discriminate].
  unfold bind at 1.
  destruct (actionToPath action (rfSingular f) params u1) as [[rel u2]|e];
    [|discriminate].
  unfold ret. set (url := joinUrl _). intros [= <- _].
  pose proof (collapseSlashes_no_double
                (let path := Str.join "/" (List.map trimSlashes
                   (List.filter (fun p => negb (Str.isEmpty p))
                      [rfBaseUrl f; prefixPath;
                       "/" +:+ trimSlashes (rfResource f); rel])) in
                 if negb (Str.startsWith path "http") && negb (Str.startsWith path "/")
                 then "/" +:+ path else path)) as Hu.
  change (Str.includes url "//" = false) in Hu.
  destruct (rfTrailingSlash f); cbn [andb]; [|exact Hu].
  destruct (Str.endsWith url "/") eqn:E; cbn [negb]; [exact Hu|].
  apply no_double_app; [exact Hu|reflexivity|].
  intros [p Hp]. rewrite Hp, endsWith_app in E. discriminate.
Qed.

Lemma route_cases f name params url :
  route f name params = Ok url ->
  exists action path used,
    buildPath f action params ∅ = Ok (path, used) /\
    (url = path \/
     url = path +:+ "?" +:+ buildQueryString params used).
Proof.
  rewrite route_segments. cbv zeta.
  destruct (negb _); [discriminate|].
  destruct (isValidAction _) as [action|]; [|discriminate].
  unfold resolve.
  destruct (buildPath f action params ∅) as [[path used]|e] eqn:E; [|discriminate].
  intros [= <-]. exists action, path, used. split; [exact E|].
  destruct (negb _); [right|left]; reflexivity.
Qed.

(** No URL returned by [route] holds two slashes in a row, whatever the base
    URL, the prefix, the resource and the parameters are. *)
Theorem route_no_double_slash f name params url :
  route f name params = Ok url -> Str.includes url "//" = false.
Proof.
  intros H. apply route_cases in H as (action & path & used & Hp & [->| ->]).
  - exact (buildPath_no_double _ _ _ _ _ _ Hp).
  - assert (Hq : Str.contains "/" (buildQueryString params used) = false).
    { apply (allChars_contains querySafe); [|reflexivity].
      apply buildQueryString_querySafe. }
    assert (Hc : Str.contains "/" ("?" +:+ buildQueryString params used) = false).
    { change ("?" +:+ buildQueryString params used)
        with (String "?" (buildQueryString params used)).
      cbn [Str.contains]. rewrite Hq. reflexivity. }
    apply no_double_app.
    + exact (buildPath_no_double _ _ _ _ _ _ Hp).
    + apply contains_no_double, Hc.
    + intros _. reflexivity.
Qed.

End UrlSlashes.

Lemma route_no_double_slash_witness :
  Str.includes "/a/photos/4%2F%2F2?q=x%2F%2Fy" "//" = false.
Proof.
  exact (route_no_double_slash
           (createLaravelResourceResolver "photos"
              {| prefix := Some "//a//"; resourceParam := None;
                 trailingSlash := None; baseUrl := Some "/" |})
           "photos.show" (objectLiteral [("id", VStr "4//2"); ("q", VStr "x//y")])
           "/a/photos/4%2F%2F2?q=x%2F%2Fy" eq_refl).
Defined.

Section TrailingSlash.

Lemma buildPath_trailing f action params used0 path used :
  rfTrailingSlash f = true ->
  buildPath f action params used0 = Ok (path, used) ->
  Str.endsWith path "/" = true.
Proof.
  intros Ht. unfold buildPath. unfold bind at 1.
  destruct (replaceTokens (rfPrefix f) params used0) as [[prefixPath u1]|e];
    [|discriminate].
  unfold bind at 1.
  destruct (actionToPath action (rfSingular f) params u1) as [[rel u2]|e];
    [|discriminate].
  unfold ret. rewrite Ht. cbn [andb]. set (url := joinUrl _).
  destruct (Str.endsWith url "/") eqn:E; cbn [negb]; intros [= <- _].
  - exact E.
  - apply endsWith_app.
Qed.

(** With the trailing slash set, every resolved URL is the path that
    [buildPath] returns for the action of the name, which ends with a slash,
    followed, when the query string of the unused parameters is not empty, by
    "?" and that query string, which holds no slash: the URL has its last
    slash right before the "?" or at its end. *)
Theorem route_trailing_slash f name params url :
  rfTrailingSlash f = true ->
  route f name params = Ok url ->
  exists action path used,
    List.nth_error (Str.split "." name) 1 = Some (actionName action) /\
    buildPath f action params ∅ = Ok (path, used) /\
    Str.endsWith path "/" = true /\
    Str.contains "/" (buildQueryString params used) = false /\
    url = if Str.isEmpty (buildQueryString params used) then path
          else path +:+ "?" +:+ buildQueryString params used.
Proof.
  intros Ht. rewrite route_segments. cbv zeta.
  destruct (negb _); [discriminate|].
  destruct (List.nth_error (Str.split "." name) 1) as [s|]; [|discriminate].
  destruct (isValidAction (Some s)) as [action|] eqn:Ea; [|discriminate].
  apply isValidAction_Some in Ea as ->.
  unfold resolve.
  destruct (buildPath f action params ∅) as [[path used]|e] eqn:E; [|discriminate].
  intros [= <-]. exists action, path, used.
  split; [reflexivity|]. split; [exact E|].
  split; [exact (buildPath_trailing _ _ _ _ _ _ Ht E)|].
  split.
  - apply (allChars_contains querySafe); [|reflexivity].
    apply buildQueryString_querySafe.
  - destruct (Str.isEmpty (buildQueryString params used)); reflexivity.
Qed.

End TrailingSlash.

Lemma route_trailing_slash_witness :
  exists action path used,
    List.nth_error (Str.split "." "photos.show") 1 = Some (actionName action) /\
    buildPath
      (createLaravelResourceResolver "photos"
         {| prefix := None; resourceParam := None;
            trailingSlash := Some true; baseUrl := None |})
      action (objectLiteral [("id", VNum 7); ("page", VNum 2)]) ∅
    = Ok (path, used) /\
    Str.endsWith path "/" = true /\
    Str.contains "/"
      (buildQueryString (objectLiteral [("id", VNum 7); ("page", VNum 2)]) used)
    = false /\
    "/photos/7/?page=2"
    = if Str.isEmpty
           (buildQueryString (objectLiteral [("id", VNum 7); ("page", VNum 2)]) used)
      then path
      else path +:+ "?" +:+
           buildQueryString (objectLiteral [("id", VNum 7); ("page", VNum 2)]) used.
Proof.
  exact (route_trailing_slash
           (createLaravelResourceResolver "photos"
              {| prefix := None; resourceParam := None;
                 trailingSlash := Some true; baseUrl := None |})
           "photos.show" (objectLiteral [("id", VNum 7); ("page", VNum 2)])
           "/photos/7/?page=2" eq_refl eq_refl).
Defined.

(** ** When a call fails and when it succeeds *)

Section Outcomes.

Variable params : Params.

Lemma substituteAll_ok_present ps used s used' :
  substituteAll params ps used = Ok (s, used') ->
  forall k, In (Placeholder k) ps -> hasKey k params = true.
Proof.
  revert used s used'. induction ps as [|p ps IH]; intros used s used' H k Hin.
  - destruct Hin.
  - cbn [substituteAll] in H. unfold bind at 1 in H.
    destruct (substitute params p used) as [[s1 u1]|e] eqn:E1; [|discriminate].
    unfold bind at 1 in H.
    destruct (substituteAll params ps u1) as [[s2 u2]|e] eqn:E2; [|discriminate].
    destruct Hin as [->|Hin]; [|exact (IH _ _ _ E2 k Hin)].
    cbn [substitute] in E1. destruct (hasKey k params); [reflexivity|discriminate].
Qed.

Lemma substituteAll_throws ps used e :
  substituteAll params ps used = Throw e ->
  exists k, e = MissingPrefixParam k /\ In (Placeholder k) ps /\
            hasKey k params = false.
Proof.
  revert used. induction ps as [|p ps IH]; intros used H; [discriminate|].
  cbn [substituteAll] in H. unfold bind at 1 in H.
  destruct (substitute params p used) as [[s1 u1]|e1] eqn:E1.
  - unfold bind at 1 in H.
    destruct (substituteAll params ps u1) as [[s2 u2]|e2] eqn:E2; [discriminate|].
    injection H as <-. destruct (IH _ E2) as (k & -> & Hin & Hk).
    exists k. split; [reflexivity|]. split; [right; exact Hin|exact Hk].
  - injection H as <-. destruct p as [c|key]; [discriminate|].
    cbn [substitute] in E1. destruct (hasKey key params) eqn:Hk; [discriminate|].
    injection E1 as <-. exists key. split; [reflexivity|].
    split; [left; reflexivity|exact Hk].
Qed.

Lemma replaceTokens_ok_present template used s used' :
  replaceTokens template params used = Ok (s, used') ->
  placeholdersPresent template params.
Proof.
  unfold replaceTokens, placeholdersPresent.
  destruct template as [|c t]; cbn [Str.isEmpty].
  - intros _ k Hin. rewrite pieces_nil in Hin. destruct Hin.
  - unfold bind, replacePlaceholders.
    destruct (substituteAll params (pieces (String c t)) used)
      as [[s1 u1]|e] eqn:E; [|discriminate].
    intros _. exact (substituteAll_ok_present _ _ _ _ E).
Qed.

Lemma replaceTokens_throws template used e :
  replaceTokens template params used = Throw e ->
  exists k, e = MissingPrefixParam k /\ In (Placeholder k) (pieces template) /\
            hasKey k params = false.
Proof.
  unfold replaceTokens. destruct (Str.isEmpty template); [discriminate|].
  unfold bind, replacePlaceholders.
  destruct (substituteAll params (pieces template) used) as [[s1 u1]|e1] eqn:E;
    [discriminate|].
  intros [= <-]. exact (substituteAll_throws _ _ _ E).
Qed.

Lemma findKey_two singular :
  findKey [singular; "id"] params
  = if hasKey singular params then Some singular
    else if hasKey "id" params then Some "id" else None.
Proof. reflexivity. Qed.

Lemma actionToPath_throws action singular used e :
  actionToPath action singular params used = Throw e ->
  e = MissingIdentifierParam singular action /\ needsId action = true /\
  (singular <> "" ->
   hasKey singular params = false /\ hasKey "id" params = false).
Proof.
  unfold actionToPath, bind. destruct (needsId action); [|discriminate].
  rewrite findKey_two.
  destruct (hasKey singular params) eqn:H1.
  - cbn [falsy]. destruct singular as [|c s]; cbn [Str.isEmpty].
    + intros [= <-]. repeat split; congruence.
    + discriminate.
  - destruct (hasKey "id" params) eqn:H2; [discriminate|].
    intros [= <-]. repeat split; reflexivity.
Qed.

Lemma route_throws f name e :
  route f name params = Throw e ->
  (exists got, e = InvalidResource (rfResource f) got) \/
  (exists got, e = InvalidAction got) \/
  exists action, buildPath f action params ∅ = Throw e.
Proof.
  rewrite route_segments. cbv zeta.
  destruct (negb _); [intros [= <-]; left; eauto|].
  destruct (isValidAction _) as [action|]; [|intros [= <-]; right; left; eauto].
  unfold resolve.
  destruct (buildPath f action params ∅) as [[path used]|e'] eqn:E; [discriminate|].
  intros [= <-]. right. right. exists action. exact E.
Qed.

Lemma buildPath_throws f action used e :
  buildPath f action params used = Throw e ->
  (exists k, e = MissingPrefixParam k /\
             In (Placeholder k) (pieces (rfPrefix f)) /\
             hasKey k params = false) \/
  (e = MissingIdentifierParam (rfSingular f) action /\ needsId action = true /\
   placeholdersPresent (rfPrefix f) params /\
   (rfSingular f <> "" ->
    hasKey (rfSingular f) params = false /\ hasKey "id" params = false)).
Proof.
  unfold buildPath. unfold bind at 1.
  destruct (replaceTokens (rfPrefix f) params used) as [[prefixPath u1]|e1] eqn:E1.
  - unfold bind at 1.
    destruct (actionToPath action (rfSingular f) params u1) as [[rel u2]|e2] eqn:E2;
      [discriminate|].
    intros [= <-]. right.
    apply actionToPath_throws in E2 as (-> & Hid & Hno).
    split; [reflexivity|]. split; [exact Hid|].
    split; [exact (replaceTokens_ok_present _ _ _ _ E1)|exact Hno].
  - intros [= <-]. left. exact (replaceTokens_throws _ _ _ E1).
Qed.

(** A call fails with the missing-prefix error only for a key that is a
    placeholder of the prefix and is not among the parameters. *)
Theorem route_missing_prefix_param f name k :
  route f name params = Throw (MissingPrefixParam k) ->
  In (Placeholder k) (pieces (rfPrefix f)) /\ hasKey k params = false.
Proof.
  intros H. apply route_throws in H as [[got H]|[[got H]|[action H]]];
    try discriminate.
  apply buildPath_throws in H as [(k' & [= ->] & Hin & Hk)|(H & _)];
    [split; assumption|discriminate].
Qed.

(** A call fails with the missing-identifier error only after every
    placeholder of the prefix has been found: the error names the singular
    key of the resolver and an identifier-bound action, and with a non-empty
    singular key neither that key nor "id" is among the parameters. *)
Theorem route_missing_identifier f name singular action :
  route f name params = Throw (MissingIdentifierParam singular action) ->
  singular = rfSingular f /\ needsId action = true /\
  placeholdersPresent (rfPrefix f) params /\
  (singular <> "" ->
   hasKey singular params = false /\ hasKey "id" params = false).
Proof.
  intros H. apply route_throws in H as [[got H]|[[got H]|[a H]]];
    try discriminate.
  apply buildPath_throws in H as [(k' & H & _)|(H & Hid & Hp & Hno)];
    [discriminate|].
  injection H as -> ->. repeat split; try assumption; apply Hno; assumption.
Qed.

End Outcomes.

Lemma route_missing_prefix_param_witness :
  In (Placeholder "team") (pieces "/users/{user}/teams/{team}") /\
  hasKey "team" (objectLiteral [("user", VNum 7)]) = false.
Proof.
  exact (route_missing_prefix_param (objectLiteral [("user", VNum 7)])
           (createLaravelResourceResolver "photos"
              {| prefix := Some "/users/{user}/teams/{team}";
                 resourceParam := None; trailingSlash := None;
                 baseUrl := None |})
           "photos.show" "team" eq_refl).
Defined.

Lemma route_missing_identifier_witness :
  "photo" = rfSingular photosRoute /\ needsId Edit = true /\
  placeholdersPresent (rfPrefix photosRoute) (objectLiteral [("page", VNum 2)]) /\
  ("photo" <> "" ->
   hasKey "photo" (objectLiteral [("page", VNum 2)]) = false /\
   hasKey "id" (objectLiteral [("page", VNum 2)]) = false).
Proof.
  exact (route_missing_identifier (objectLiteral [("page", VNum 2)]) photosRoute
           "photos.edit" "photo" Edit eq_refl).
Defined.

Section Success.

Variable params : Params.



Lemma actionToPath_ok_key action singular used rel used' :
  actionToPath action singular params used = Ok (rel, used') ->
  needsId action = true ->
  (singular <> "" /\ hasKey singular params = true) \/
  (hasKey singular params = false /\ hasKey "id" params = true).
Proof.
  intros H Hid. unfold actionToPath, bind in H. rewrite Hid, findKey_two in H.
  destruct (hasKey singular params) eqn:H1.
  - cbn [falsy] in H. destruct singular as [|c s]; cbn [Str.isEmpty] in H;
      [discriminate|].
    left. split; [discriminate|reflexivity].
  - destruct (hasKey "id" params) eqn:H2; [|discriminate].
    right. split; reflexivity.
Qed.

(** What a successful call requires: the segment of the name before its
    first "." is the configured resource, the next segment is the name of an
    action, [in] finds every placeholder of the prefix in the parameters
    and, for an identifier-bound action, [in] finds either the singular key,
    which is then not empty, or, failing that, "id". *)
Theorem route_success_requirements f name url :
  route f name params = Ok url ->
  List.hd "" (Str.split "." name) = rfResource f /\
  exists action,
    List.nth_error (Str.split "." name) 1 = Some (actionName action) /\
    placeholdersPresent (rfPrefix f) params /\
    (needsId action = true ->
     (rfSingular f <> "" /\ hasKey (rfSingular f) params = true) \/
     (hasKey (rfSingular f) params = false /\ hasKey "id" params = true)).
Proof.
  rewrite route_segments. cbv zeta.
  destruct (String.eqb_spec (List.hd "" (Str.split "." name)) (rfResource f))
    as [Hres|_]; cbn [negb]; [|discriminate].
  destruct (List.nth_error (Str.split "." name) 1) as [s|]; [|discriminate].
  destruct (isValidAction (Some s)) as [action|] eqn:Ea; [|discriminate].
  apply isValidAction_Some in Ea as ->.
  unfold resolve.
  destruct (buildPath f action params ∅) as [[path used]|e] eqn:E; [|discriminate].
  intros _. split; [exact Hres|]. exists action. split; [reflexivity|].
  unfold buildPath in E. unfold bind at 1 in E.
  destruct (replaceTokens (rfPrefix f) params ∅) as [[s u1]|e] eqn:E1;
    [|discriminate].
  unfold bind at 1 in E.
  destruct (actionToPath action (rfSingular f) params u1) as [[rel u2]|e] eqn:E2;
    [|discriminate].
  split; [exact (replaceTokens_ok_present _ _ _ _ _ E1)|].
  exact (actionToPath_ok_key _ _ _ _ _ E2).
Qed.

(** Only keys of the parameters are ever marked used. *)
Theorem buildPath_used_keys_present f action path used :
  buildPath f action params ∅ = Ok (path, used) ->
  forall k, k ∈ used -> hasKey k params = true.
Proof.
  intros H k Hk. pose proof H as Hb.
  apply (buildPath_used _ _ _ _ _ H) in Hk as [Hin|[_ Hf]].
  - unfold buildPath in Hb. unfold bind at 1 in Hb.
    destruct (replaceTokens (rfPrefix f) params ∅) as [[s u1]|e] eqn:E1;
      [|discriminate].
    exact (replaceTokens_ok_present _ _ _ _ _ E1 k Hin).
  - rewrite findKey_two in Hf.
    destruct (hasKey (rfSingular f) params) eqn:H1; [congruence|].
    destruct (hasKey "id" params) eqn:H2; [congruence|discriminate].
Qed.

End Success.

Lemma route_success_requirements_witness :
  List.hd "" (Str.split "." "photos.show.extra") = rfResource photosRoute /\
  exists action,
    List.nth_error (Str.split "." "photos.show.extra") 1
    = Some (actionName action) /\
    placeholdersPresent (rfPrefix photosRoute)
      (objectLiteral [("photo", VNum 1)]) /\
    (needsId action = true ->
     (rfSingular photosRoute <> "" /\
      hasKey (rfSingular photosRoute) (objectLiteral [("photo", VNum 1)]) = true) \/
     (hasKey (rfSingular photosRoute) (objectLiteral [("photo", VNum 1)]) = false /\
      hasKey "id" (objectLiteral [("photo", VNum 1)]) = true)).
Proof.
  exact (route_success_requirements (objectLiteral [("photo", VNum 1)])
           photosRoute "photos.show.extra" "/photos/1" eq_refl).
Defined.

Lemma buildPath_used_keys_present_witness :
  hasKey "user" (objectLiteral [("user", VNum 7); ("photo", VNum 42); ("q", VNum 1)]) = true.
Proof.
  apply (buildPath_used_keys_present
           (objectLiteral [("user", VNum 7); ("photo", VNum 42); ("q", VNum 1)])
           (createLaravelResourceResolver "photos"
              {| prefix := Some "/users/{user}"; resourceParam := None;
                 trailingSlash := None; baseUrl := None |})
           Show "/users/7/photos/42" ({["photo"]} ∪ ({["user"]} ∪ ∅)) eq_refl).
  apply elem_of_union. right. apply elem_of_union. left.
  apply elem_of_singleton. reflexivity.
Defined.

(** ** Actions that share a URL *)

Section SharedUrls.

Lemma split_app c s t :
  Str.split c (s +:+ String c t) = (Str.split c s ++ Str.split c t)%list.
Proof.
  induction s as [|a s IH].
  - rewrite app_nil_l. cbn [Str.split]. rewrite Ascii.eqb_refl. reflexivity.
  - rewrite app_cons. cbn [Str.split]. rewrite IH.
    destruct (Ascii.eqb a c); [reflexivity|].
    destruct (Str.split c s) as [|h l] eqn:E; [destruct (split_not_nil _ _ E)|].
    reflexivity.
Qed.

(** The first two segments of [r.<x>] and what they depend on. *)
Lemma route_suffixed f r x params :
  Str.contains "." x = false ->
  route f (r +:+ "." +:+ x) params
  = match Str.split "." r with
    | [res] =>
        if negb (String.eqb res (rfResource f))
        then Throw (InvalidResource (rfResource f) res)
        else match isValidAction (Some x) with
             | None => Throw (InvalidAction (Some x))
             | Some a => resolve f a params
             end
    | _ => route f r params
    end.
Proof.
  intros Hx. rewrite !route_segments. cbv zeta.
  change ("." +:+ x) with (String "." x).
  rewrite split_app, (split_no_sep _ _ Hx).
  destruct (Str.split "." r) as [|res [|act l]] eqn:E;
    [destruct (split_not_nil _ _ E)|reflexivity|reflexivity].
Qed.

Lemma buildPath_index_store f params used :
  buildPath f Index params used = buildPath f Store params used.
Proof. reflexivity. Qed.

Lemma actionToPath_same_segment a b singular params used rel used' :
  needsId a = true -> needsId b = true -> a <> Edit -> b <> Edit ->
  actionToPath a singular params used = Ok (rel, used') ->
  actionToPath b singular params used = Ok (rel, used').
Proof.
  intros Ha Hb Hae Hbe. unfold actionToPath, bind. rewrite Ha, Hb.
  destruct (falsy (findKey [singular; "id"] params)); [discriminate|].
  unfold addUsed, ret.
  destruct a; try discriminate; try contradiction;
    destruct b; try discriminate; try contradiction; exact (fun H => H).
Qed.

Lemma resolve_same_segment a b f params url :
  needsId a = true -> needsId b = true -> a <> Edit -> b <> Edit ->
  resolve f a params = Ok url -> resolve f b params = Ok url.
Proof.
  intros Ha Hb Hae Hbe. unfold resolve, buildPath. unfold bind at 1 3.
  destruct (replaceTokens (rfPrefix f) params ∅) as [[s u1]|e]; [|discriminate].
  unfold bind at 1 2.
  destruct (actionToPath a (rfSingular f) params u1) as [[rel u2]|e] eqn:E;
    [|discriminate].
  rewrite (actionToPath_same_segment a b _ _ _ _ _ Ha Hb Hae Hbe E).
  exact (fun H => H).
Qed.

(** Index and store resolve alike for every name prefix and all parameters;
    show, update and destroy resolve to the same URL whenever one of them
    resolves (their failures differ only in the action they name). *)
Theorem route_shared_urls f r params :
  route f (r +:+ ".index") params = route f (r +:+ ".store") params /\
  forall url,
    (route f (r +:+ ".show") params = Ok url <->
     route f (r +:+ ".update") params = Ok url) /\
    (route f (r +:+ ".show") params = Ok url <->
     route f (r +:+ ".destroy") params = Ok url).
Proof.
  change (r +:+ ".index") with (r +:+ "." +:+ "index").
  change (r +:+ ".store") with (r +:+ "." +:+ "store").
  change (r +:+ ".show") with (r +:+ "." +:+ "show").
  change (r +:+ ".update") with (r +:+ "." +:+ "update").
  change (r +:+ ".destroy") with (r +:+ "." +:+ "destroy").
  split.
  - rewrite (route_suffixed f r "index" params eq_refl),
      (route_suffixed f r "store" params eq_refl).
    destruct (Str.split "." r) as [|res [|act l]]; reflexivity.
  - intros url.
    rewrite (route_suffixed f r "show" params eq_refl),
      (route_suffixed f r "update" params eq_refl),
      (route_suffixed f r "destroy" params eq_refl).
    destruct (Str.split "." r) as [|res [|act l]]; try (split; reflexivity).
    destruct (negb _); [split; reflexivity|].
    cbn [isValidAction String.eqb Ascii.eqb Bool.eqb].
    split; split; apply resolve_same_segment; (reflexivity || discriminate).
Qed.

End SharedUrls.

(** ** Action names *)

(** [isValidAction] accepts exactly the seven action names, with the case
    they are written in, and nothing else: a string is narrowed to an action
    if and only if it is that action's name, and a missing segment is
    rejected. *)
Theorem isValidAction_exact s action :
  (isValidAction (Some s) = Some action <-> s = actionName action) /\
  isValidAction None = None.
Proof.
  split; [|reflexivity]. split.
  - apply isValidAction_Some.
  - intros ->. apply isValidAction_name.
Qed.

(** ** Singular keys *)

(** The derived singular is never longer than the resource name, and it is
    the name itself exactly when the name does not end in "s". *)
Theorem toSingular_shortens s :
  String.length (toSingular s) <= String.length s /\
  (toSingular s = s <-> ~ endsIn s "s").
Proof.
  unfold toSingular.
  destruct (Str.endsWith s "ies") eqn:E1.
  { apply endsWith_inv in E1 as [p ->]. change 3 with (String.length "ies").
    rewrite sliceEnd_app, !length_app. cbn [String.length]. split; [lia|].
    split.
    - intros H. apply (f_equal String.length) in H.
      rewrite !length_app in H. cbn [String.length] in H. lia.
    - intros H. destruct H. exists (p +:+ "ie"). rewrite app_assoc. reflexivity. }
  destruct (Str.endsWith s "ses") eqn:E2.
  { apply endsWith_inv in E2 as [p ->].
    change (p +:+ "ses") with (p +:+ "s" +:+ "es"). rewrite <- app_assoc.
    change 2 with (String.length "es").
    rewrite sliceEnd_app, !length_app. cbn [String.length]. split; [lia|].
    split.
    - intros H. apply (f_equal String.length) in H.
      rewrite !length_app in H. cbn [String.length] in H. lia.
    - intros H. destruct H. exists (p +:+ "se"). rewrite !app_assoc. reflexivity. }
  destruct (Str.endsWith s "s") eqn:E3.
  { apply endsWith_inv in E3 as [p ->]. change 1 with (String.length "s").
    rewrite sliceEnd_app, !length_app. cbn [String.length]. split; [lia|].
    split.
    - intros H. apply (f_equal String.length) in H.
      rewrite !length_app in H. cbn [String.length] in H. lia.
    - intros H. destruct H. exists p. reflexivity. }
  split; [lia|]. split; [|reflexivity].
  intros _ H. apply endsWith_iff in H. congruence.
Qed.

(** ** The URLs of a resolver with default options *)

Section DefaultUrls.










Variable f : RouteFn.
Variable params : Params.
Hypothesis plain_prefix : rfPrefix f = "".
Hypothesis plain_base : rfBaseUrl f = "".
Hypothesis plain_slash : rfTrailingSlash f = false.
Hypothesis resource_nonempty : rfResource f <> "".
Hypothesis resource_no_slash : Str.contains "/" (rfResource f) = false.
Hypothesis resource_no_dot : Str.contains "." (rfResource f) = false.



End DefaultUrls.



(** A resource whose name begins with "http" resolves without the leading
    slash. *)
Example http_resource_relative :
  route (createLaravelResourceResolver "httplogs" noOptions) "httplogs.index" noParams
  = Ok "httplogs".
Proof. vm_compute. reflexivity. Qed.

(** ** The order of the identifier keys *)



(** ** Percent-encoding of identifiers *)

Section PercentEncoding.

Lemma hex_digit_inj n m :
  (n < 16)%N -> (m < 16)%N -> hex_digit n = hex_digit m -> n = m.
Proof.
  intros Hn Hm H. unfold hex_digit in H.
  apply (f_equal N_of_ascii) in H.
  destruct (N.ltb_spec n 10), (N.ltb_spec m 10);
    rewrite !N_ascii_embedding in H by lia; lia.
Qed.

Lemma percent_inj a b : percent a = percent b -> a = b.
Proof.
  unfold percent. intros [= Hhi Hlo].
  assert (Ha : (N_of_ascii a < 256)%N) by apply N_ascii_bounded.
  assert (Hb : (N_of_ascii b < 256)%N) by apply N_ascii_bounded.
  apply hex_digit_inj in Hhi;
    [|apply N.Div0.div_lt_upper_bound; lia|apply N.Div0.div_lt_upper_bound; lia].
  apply hex_digit_inj in Hlo; [|apply N.mod_lt; lia|apply N.mod_lt; lia].
  rewrite <- (ascii_N_embedding a), <- (ascii_N_embedding b). f_equal.
  rewrite (N.div_mod (N_of_ascii a) 16), (N.div_mod (N_of_ascii b) 16) by lia.
  rewrite Hhi, Hlo. reflexivity.
Qed.

Lemma encodeURIComponent_cons a s :
  encodeURIComponent (String a s)
  = (if uri_unreserved a then String a "" else percent a) +:+ encodeURIComponent s.
Proof. reflexivity. Qed.

Lemma encodeURIComponent_inj s t :
  encodeURIComponent s = encodeURIComponent t -> s = t.
Proof.
  revert t. induction s as [|a s IH]; intros [|b t] H.
  - reflexivity.
  - rewrite encodeURIComponent_cons in H.
    destruct (uri_unreserved b); unfold percent in H; rewrite app_cons in H;
      discriminate.
  - rewrite encodeURIComponent_cons in H.
    destruct (uri_unreserved a); unfold percent in H; rewrite app_cons in H;
      discriminate.
  - rewrite !encodeURIComponent_cons in H.
    destruct (uri_unreserved a) eqn:Ea, (uri_unreserved b) eqn:Eb.
    + rewrite !app_cons, !app_nil_l in H. injection H as -> H.
      rewrite (IH _ H). reflexivity.
    + unfold percent in H. rewrite !app_cons, !app_nil_l in H.
      injection H as -> _. discriminate.
    + unfold percent in H. rewrite !app_cons, !app_nil_l in H.
      injection H as <- _. discriminate.
    + assert (Hp : percent a = percent b /\
                   encodeURIComponent s = encodeURIComponent t).
      { unfold percent in *. rewrite !app_cons, !app_nil_l in H.
        injection H as H1 H2 H3. rewrite H1, H2. split; [reflexivity|exact H3]. }
      destruct Hp as [Hp Hst]. rewrite (percent_inj _ _ Hp), (IH _ Hst).
      reflexivity.
Qed.

Lemma encodeURIComponent_unreserved s :
  allChars uri_unreserved s = true -> encodeURIComponent s = s.
Proof.
  induction s as [|a s IH]; [reflexivity|].
  cbn [allChars]. intros [Ha Hs]%andb_prop.
  rewrite encodeURIComponent_cons, Ha, (IH Hs). reflexivity.
Qed.

Lemma app_inv_tail s t u : s +:+ u = t +:+ u -> s = t.
Proof.
  revert t. induction s as [|a s IH]; intros [|b t] H.
  - reflexivity.
  - apply (f_equal String.length) in H. rewrite app_nil_l, length_app in H.
    cbn [String.length] in H. lia.
  - apply (f_equal String.length) in H. rewrite app_nil_l, length_app in H.
    cbn [String.length] in H. lia.
  - rewrite !app_cons in H. injection H as -> H. rewrite (IH _ H). reflexivity.
Qed.

Lemma identifierPath_inj action v w :
  identifierPath action v = identifierPath action w -> toStr v = toStr w.
Proof.
  unfold identifierPath. intros H.
  change ("/" +:+ encodeURIComponent (toStr v) +:+ ?x)
    with (String "/" (encodeURIComponent (toStr v) +:+ x)) in H.
  change ("/" +:+ encodeURIComponent (toStr w) +:+ ?x)
    with (String "/" (encodeURIComponent (toStr w) +:+ x)) in H.
  injection H as H. apply app_inv_tail in H.
  apply encodeURIComponent_inj, H.
Qed.

(** The path segment of an identifier determines the identifier: two
    parameter objects that give the same segment under the singular key hold
    values that print the same; and a value printed with unreserved
    characters only stands in the segment as it is. *)
Theorem identifier_segment_faithful action singular p q used :
  needsId action = true ->
  singular <> "" ->
  hasKey singular p = true ->
  (hasKey singular q = true ->
   actionToPath action singular p used = actionToPath action singular q used ->
   toStr (getParam singular p) = toStr (getParam singular q)) /\
  (allChars uri_unreserved (toStr (getParam singular p)) = true ->
   actionToPath action singular p used
   = Ok ("/" +:+ toStr (getParam singular p) +:+ actionSuffix action,
         {[singular]} ∪ used)).
Proof.
  intros Hid Hne Hp. split.
  - intros Hq. rewrite !(actionToPath_identifier _ _ _ _ Hid Hne), Hp, Hq.
    intros H.
    apply (f_equal (fun r => match r with Ok (x, _) => x | Throw _ => "" end)) in H.
    exact (identifierPath_inj _ _ _ H).
  - intros H. rewrite (actionToPath_identifier _ _ _ _ Hid Hne), Hp.
    unfold identifierPath. rewrite (encodeURIComponent_unreserved _ H).
    destruct action; try discriminate; reflexivity.
Qed.

End PercentEncoding.

Lemma identifier_segment_faithful_witness :
  actionToPath Edit "photo" (objectLiteral [("photo", VStr "my-photo_1")]) ∅
  = Ok ("/my-photo_1/edit", {["photo"]} ∪ ∅).
Proof.
  destruct (identifier_segment_faithful Edit "photo"
              (objectLiteral [("photo", VStr "my-photo_1")]) (objectLiteral [("photo", VStr "my-photo_1")]) ∅
              eq_refl ltac:(discriminate) eq_refl) as [_ H].
  exact (H eq_refl).
Defined.

(** ** The prefix after substitution *)

(** The substituted prefix never begins or ends with a slash. *)
Theorem replaceTokens_trimmed template params used s used' :
  replaceTokens template params used = Ok (s, used') ->
  Str.startsWith s "/" = false /\ Str.endsWith s "/" = false.
Proof.
  unfold replaceTokens. destruct (Str.isEmpty template).
  - intros [= <- _]. split; reflexivity.
  - unfold bind.
    destruct (replacePlaceholders template params used) as [[t u]|e];
      [|discriminate].
    intros [= <- _]. split.
    + apply dropTrailing_keeps_head, dropLeading_not_leading.
    + apply endsWith_false, dropTrailing_not_trailing.
Qed.

Lemma replaceTokens_trimmed_witness :
  Str.startsWith "users/7" "/" = false /\ Str.endsWith "users/7" "/" = false.
Proof.
  exact (replaceTokens_trimmed "//users/{user}/" (objectLiteral [("user", VNum 7)]) ∅
           "users/7" ({["user"]} ∪ ∅) eq_refl).
Defined.

(** ** The causes of the name errors *)

(** A resource error always reports the configured resource and the first
    segment of the name, which differ; an action error is only raised when
    the first segment is the configured resource, and reports the second
    segment, which is missing or no action name. *)
Theorem route_name_errors f name params :
  (forall expected got,
      route f name params = Throw (InvalidResource expected got) ->
      expected = rfResource f /\ got = List.hd "" (Str.split "." name) /\
      got <> expected) /\
  (forall got,
      route f name params = Throw (InvalidAction got) ->
      List.hd "" (Str.split "." name) = rfResource f /\
      got = List.nth_error (Str.split "." name) 1 /\
      (forall action, got <> Some (actionName action))).
Proof.
  split.
  - intros expected got. rewrite route_segments. cbv zeta.
    destruct (String.eqb_spec (List.hd "" (Str.split "." name)) (rfResource f))
      as [E|Hne]; cbn [negb].
    + destruct (isValidAction _) as [a|]; [|discriminate].
      intros H. exfalso. unfold resolve in H.
      destruct (buildPath f a params ∅) as [[path used]|e] eqn:Eb; [discriminate|].
      injection H as ->.
      apply buildPath_throws in Eb as [(k & Hk & _)|(Hk & _)]; discriminate.
    + intros [= <- <-]. repeat split. exact Hne.
  - intros got. rewrite route_segments. cbv zeta.
    destruct (String.eqb_spec (List.hd "" (Str.split "." name)) (rfResource f))
      as [E|Hne]; cbn [negb]; [|discriminate].
    destruct (isValidAction (List.nth_error (Str.split "." name) 1))
      as [a|] eqn:Ea.
    + intros H. exfalso. unfold resolve in H.
      destruct (buildPath f a params ∅) as [[path used]|e] eqn:Eb; [discriminate|].
      injection H as ->.
      apply buildPath_throws in Eb as [(k & Hk & _)|(Hk & _)]; discriminate.
    + intros [= <-]. split; [exact E|]. split; [reflexivity|].
      intros action H.
      assert (Hn : isValidAction (Some (actionName action)) = None)
        by (rewrite <- H; exact Ea).
      rewrite isValidAction_name in Hn. discriminate.
Qed.

Lemma route_name_errors_witness :
  "photos" = rfResource photosRoute /\
  "Photos" = List.hd "" (Str.split "." "Photos.index") /\
  "Photos" <> "photos".
Proof.
  destruct (route_name_errors photosRoute "Photos.index" noParams) as [H _].
  exact (H "photos" "Photos" eq_refl).
Defined.

Lemma route_shared_urls_witness :
  route photosRoute "photos.index" (objectLiteral [("page", VNum 2)])
  = route photosRoute "photos.store" (objectLiteral [("page", VNum 2)]) /\
  route photosRoute "photos.update" (objectLiteral [("id", VNum 7)]) = Ok "/photos/7" /\
  route photosRoute "photos.destroy" (objectLiteral [("id", VNum 7)]) = Ok "/photos/7".
Proof.
  destruct (route_shared_urls photosRoute "photos" (objectLiteral [("page", VNum 2)])) as [H _].
  destruct (route_shared_urls photosRoute "photos" (objectLiteral [("id", VNum 7)])) as [_ H'].
  destruct (H' "/photos/7") as [[Hu _] [Hd _]].
  split; [exact H|]. split; [exact (Hu eq_refl)|exact (Hd eq_refl)].
Defined.

(** ** The scanner loses nothing *)

Section Unparse.

(** Writing the pieces back, each placeholder as its token, gives the
    template: every character of the template is in exactly one piece, and
    the placeholders found are names in braces. *)
Theorem pieces_unparse template :
  unparse (pieces template) = template /\
  forall k, In (Placeholder k) (pieces template) -> isName k = true.
Proof.
  remember (String.length template) as n eqn:Hn.
  revert template Hn. induction n as [n IH] using lt_wf_ind. intros s Hn.
  destruct s as [|c r]; [split; [reflexivity|intros k []]|].
  rewrite pieces_cons.
  destruct (matchPlaceholder (String c r)) as [[key rest]|] eqn:E.
  - pose proof (matchPlaceholder_shorter _ _ _ E) as Hlt.
    apply matchPlaceholder_inv in E as [E Hk].
    destruct (IH (String.length rest) ltac:(subst n; exact Hlt) rest eq_refl)
      as [H1 H2].
    split.
    + cbn [unparse]. rewrite H1. symmetry. exact E.
    + intros k [[= <-]|Hin]; [exact Hk|exact (H2 k Hin)].
  - destruct (IH (String.length r) ltac:(subst n; simpl; lia) r eq_refl)
      as [H1 H2].
    split.
    + cbn [unparse]. rewrite H1. reflexivity.
    + intros k [H|Hin]; [discriminate|exact (H2 k Hin)].
Qed.

End Unparse.

(** * Inherited properties *)

(** C5, evaluated.  The parameters [{}] hold no key "toString", yet the
    prefix "/u/{toString}" is replaced without the missing-prefix error:
    [key in params] also finds what the object inherits from
    [Object.prototype], so the text of the inherited function is encoded
    into the prefix and "toString" is marked used; likewise "__proto__"
    reads as the prototype, which prints as "[object Object]".  The same
    call with an own key of that name uses its value, and a name that is not
    inherited fails as intended. *)
Theorem replaceTokens_inherited_key_accepted :
  ownEntries noParams = [] /\
  replaceTokens "/u/{toString}" noParams ∅
  = Ok ("u/function%20toString()%20%7B%20%5Bnative%20code%5D%20%7D",
        {["toString"]} ∪ ∅) /\
  route (createLaravelResourceResolver "photos"
           {| prefix := Some "/u/{toString}"; resourceParam := None;
              trailingSlash := None; baseUrl := None |})
        "photos.index" noParams
  = Ok "/u/function%20toString()%20%7B%20%5Bnative%20code%5D%20%7D/photos" /\
  replaceTokens "/u/{__proto__}" noParams ∅
  = Ok ("u/%5Bobject%20Object%5D", {["__proto__"]} ∪ ∅) /\
  replaceTokens "/u/{toString}" (objectLiteral [("toString", VNum 7)]) ∅
  = Ok ("u/7", {["toString"]} ∪ ∅) /\
  replaceTokens "/u/{user}" noParams ∅ = Throw (MissingPrefixParam "user").
Proof. repeat split; vm_compute; reflexivity. Qed.

(** The identifier key is looked up the same way: for the resource
    "constructors" the singular key "constructor" is inherited by every
    plain object, so it wins over an own "id", which goes to the query
    string. *)
Example inherited_singular_key :
  route (createLaravelResourceResolver "constructors" noOptions)
        "constructors.show" (objectLiteral [("id", VNum 5)])
  = Ok "/constructors/function%20Object()%20%7B%20%5Bnative%20code%5D%20%7D?id=5".
Proof. vm_compute. reflexivity. Qed.

(** * The resolver on a store *)

Section OnTheStore.

Lemma setSet_id h u : u < length (setCells h) -> setSet h u (setAt h u) = h.
Proof.
  intros Hu. destruct h as [sets objs]. unfold setSet, setAt. cbn in *.
  f_equal. apply list_insert_id.
  destruct (lookup_lt_is_Some_2 sets u Hu) as [x Hx]. rewrite Hx. reflexivity.
Qed.

Lemma setAt_setSet h u s : u < length (setCells h) -> setAt (setSet h u s) u = s.
Proof.
  intros Hu. unfold setAt, setSet. cbn.
  rewrite list_lookup_insert_eq by exact Hu. reflexivity.
Qed.

Lemma setSet_setSet h u a b : setSet (setSet h u a) u b = setSet h u b.
Proof. unfold setSet. cbn. rewrite list_insert_insert_eq. reflexivity. Qed.

Lemma length_setSet h u s :
  length (setCells (setSet h u s)) = length (setCells h).
Proof. unfold setSet. cbn. apply length_insert. Qed.

Variables p u : nat.
Variable params : Params.

Lemma objAt_setSet h s : objAt (setSet h u s) p = objAt h p.
Proof. reflexivity. Qed.

Lemma sim_ret {A} h (a : A) :
  u < length (setCells h) -> simulates u h (retS a h) (ret a (setAt h u)).
Proof.
  intros Hu. exists (setAt h u). split; [|split; reflexivity].
  symmetry. apply setSet_id, Hu.
Qed.

Lemma sim_throw {A} h e used :
  u < length (setCells h) ->
  simulates (A := A) u h (throwS e h) (throw e used).
Proof.
  intros Hu. exists (setAt h u). split; [|reflexivity].
  symmetry. apply setSet_id, Hu.
Qed.

Lemma sim_bind {A B} h (m : St A) (k : A -> St B) (m' : M A) (k' : A -> M B) :
  u < length (setCells h) ->
  objAt h p = params ->
  simulates u h (m h) (m' (setAt h u)) ->
  (forall a h', u < length (setCells h') -> objAt h' p = params ->
                simulates u h' (k a h') (k' a (setAt h' u))) ->
  simulates u h (bindS m k h) (bind m' k' (setAt h u)).
Proof.
  intros Hu Hp (w & Hw & Hm) Hk. unfold bindS, bind.
  destruct (m h) as [r1 h1]. cbn in Hw, Hm. subst h1.
  destruct (m' (setAt h u)) as [[a used']|e].
  - destruct Hm as [-> ->].
    assert (Hu' : u < length (setCells (setSet h u used')))
      by (rewrite length_setSet; exact Hu).
    specialize (Hk a (setSet h u used') Hu' Hp).
    rewrite (setAt_setSet _ _ _ Hu) in Hk.
    destruct Hk as (w2 & Hw2 & Hr).
    exists w2. split; [|exact Hr]. rewrite Hw2. apply setSet_setSet.
  - rewrite Hm. exists w. split; reflexivity.
Qed.

Lemma substituteS_sim piece h :
  u < length (setCells h) -> objAt h p = params ->
  simulates u h (substituteS p u piece h) (substitute params piece (setAt h u)).
Proof.
  intros Hu Hp. destruct piece as [c|key]; [apply sim_ret, Hu|].
  cbn [substituteS substitute]. unfold bindS at 1. unfold objHas at 1.
  rewrite Hp.
  destruct (hasKey key params); cbn [negb]; [|apply sim_throw, Hu].
  exists ({[key]} ∪ setAt h u). split; [reflexivity|].
  unfold bind, addUsed, ret. cbn. rewrite <- Hp. split; reflexivity.
Qed.

Lemma substituteAllS_sim ps h :
  u < length (setCells h) -> objAt h p = params ->
  simulates u h (substituteAllS p u ps h) (substituteAll params ps (setAt h u)).
Proof.
  revert h. induction ps as [|piece ps IH]; intros h Hu Hp; [apply sim_ret, Hu|].
  cbn [substituteAllS substituteAll].
  apply sim_bind; [exact Hu|exact Hp|apply substituteS_sim; assumption|].
  intros s h1 Hu1 Hp1.
  apply sim_bind; [exact Hu1|exact Hp1|apply IH; assumption|].
  intros t h2 Hu2 _. apply sim_ret, Hu2.
Qed.

Lemma replaceTokensS_sim template h :
  u < length (setCells h) -> objAt h p = params ->
  simulates u h (replaceTokensS template p u h)
            (replaceTokens template params (setAt h u)).
Proof.
  intros Hu Hp. unfold replaceTokensS, replaceTokens, replacePlaceholders.
  destruct (Str.isEmpty template); [apply sim_ret, Hu|].
  apply sim_bind; [exact Hu|exact Hp|apply substituteAllS_sim; assumption|].
  intros s h1 Hu1 _. apply sim_ret, Hu1.
Qed.

Lemma findKeyS_eq candidateKeys h :
  objAt h p = params ->
  findKeyS p candidateKeys h = (Ok (findKey candidateKeys params), h).
Proof.
  intros Hp. induction candidateKeys as [|k ks IH]; [reflexivity|].
  cbn [findKeyS]. unfold bindS, objHas, findKey. cbn [List.find].
  rewrite Hp. destruct (hasKey k params); [reflexivity|exact IH].
Qed.

Lemma actionToPathS_sim action singular h :
  u < length (setCells h) -> objAt h p = params ->
  simulates u h (actionToPathS action singular p u h)
            (actionToPath action singular params (setAt h u)).
Proof.
  intros Hu Hp. unfold actionToPathS, actionToPath.
  apply sim_bind; [exact Hu|exact Hp| |intros s h1 Hu1 _; apply sim_ret, Hu1].
  destruct (needsId action); [|apply sim_ret, Hu].
  unfold bindS at 1. rewrite (findKeyS_eq _ _ Hp).
  destruct (falsy (findKey [singular; "id"] params)); [apply sim_throw, Hu|].
  exists ({[default "" (findKey [singular; "id"] params)]} ∪ setAt h u).
  split; [reflexivity|].
  unfold bind, addUsed, ret. cbn. rewrite <- Hp. split; reflexivity.
Qed.

Lemma filterUnusedS_eq entries h :
  filterUnusedS u entries h
  = (Ok (List.filter (fun e => negb (bool_decide (e.1 ∈ setAt h u)) && notNullish e.2)
                     entries), h).
Proof.
  induction entries as [|e rest IH]; [reflexivity|].
  cbn [filterUnusedS List.filter]. unfold bindS at 1, setHas at 1.
  unfold bindS at 1. rewrite IH. reflexivity.
Qed.

Lemma buildQueryStringS_eq h :
  objAt h p = params ->
  buildQueryStringS p u h = (Ok (buildQueryString params (setAt h u)), h).
Proof.
  intros Hp. unfold buildQueryStringS, buildQueryString, unusedEntries.
  unfold bindS at 1, objEntries at 1. unfold bindS at 1.
  rewrite filterUnusedS_eq, Hp. reflexivity.
Qed.

(** The body of [route] after the allocation of its set. *)
Lemma resolveS_sim f action h :
  u < length (setCells h) -> objAt h p = params ->
  simulates u h
    ((do* prefixPath := replaceTokensS (rfPrefix f) p u in
      let root := "/" +:+ trimSlashes (rfResource f) in
      do* rel := actionToPathS action (rfSingular f) p u in
      let url := joinUrl [rfBaseUrl f; prefixPath; root; rel] in
      let url := if rfTrailingSlash f && negb (Str.endsWith url "/")
                 then url +:+ "/" else url in
      do* qs := buildQueryStringS p u in
      retS (if negb (Str.isEmpty qs) then url +:+ "?" +:+ qs else url)) h)
    (resolveM f action params (setAt h u)).
Proof.
  intros Hu Hp. unfold resolveM.
  apply sim_bind; [exact Hu|exact Hp|apply replaceTokensS_sim; assumption|].
  intros prefixPath h1 Hu1 Hp1. cbv zeta.
  apply sim_bind; [exact Hu1|exact Hp1|apply actionToPathS_sim; assumption|].
  intros rel h2 Hu2 Hp2. unfold bindS. rewrite (buildQueryStringS_eq _ Hp2).
  apply sim_ret, Hu2.
Qed.

End OnTheStore.

Lemma bindS_newSet {A} (k : nat -> St A) h :
  (do* usedKeys := newSet in k usedKeys) h
  = k (length (setCells h))
      {| setCells := (setCells h ++ [∅])%list; objCells := objCells h |}.
Proof. reflexivity. Qed.

Lemma resolve_resolveM f action params :
  resolve f action params
  = match resolveM f action params ∅ with
    | Ok (url, _) => Ok url
    | Throw e => Throw e
    end.
Proof.
  unfold resolve, resolveM, buildPath. unfold bind at 1 3.
  destruct (replaceTokens (rfPrefix f) params ∅) as [[prefixPath u1]|e];
    [|reflexivity].
  unfold bind.
  destruct (actionToPath action (rfSingular f) params u1) as [[rel u2]|e];
    reflexivity.
Qed.

(** A call on the store returns what the state-passing [route] returns for
    the object at [p], and leaves the store as it was except for the sets it
    allocated. *)
Lemma routeS_run f name p h :
  exists fresh,
    (routeS f name p h).2
    = {| setCells := (setCells h ++ fresh)%list; objCells := objCells h |} /\
    (routeS f name p h).1 = route f name (objAt h p).
Proof.
  unfold routeS, route. cbv zeta.
  assert (Hsame : h = {| setCells := (setCells h ++ [])%list; objCells := objCells h |}).
  { destruct h. cbn. rewrite List.app_nil_r. reflexivity. }
  destruct (negb _); [exists []; split; [exact Hsame|reflexivity]|].
  destruct (isValidAction _) as [action|];
    [|exists []; split; [exact Hsame|reflexivity]].
  rewrite !bindS_newSet.
  set (u := length (setCells h)).
  set (h1 := {| setCells := (setCells h ++ [∅])%list; objCells := objCells h |}).
  assert (Hu : u < length (setCells h1)).
  { subst u h1. cbn. rewrite List.length_app. cbn. lia. }
  assert (Hempty : setAt h1 u = ∅).
  { subst u h1. unfold setAt. cbn.
    rewrite (list_lookup_middle (setCells h) [] ∅ _ eq_refl). reflexivity. }
  pose proof (resolveS_sim p u (objAt h p) f action h1 Hu eq_refl) as Hsim.
  unfold simulates in Hsim. cbv zeta in Hsim.
  destruct Hsim as (w & Hw & Hr).
  rewrite Hempty in Hr. rewrite resolve_resolveM.
  exists [w]. split.
  - rewrite Hw. subst u h1. unfold setSet. cbn. f_equal.
    rewrite insert_app_r_alt by lia. rewrite Nat.sub_diag. reflexivity.
  - destruct (resolveM f action (objAt h p) ∅) as [[url used]|e];
      [destruct Hr as [Hr _]|]; exact Hr.
Qed.

(** C8.  A call returns what [route] computes from the captured constants,
    the name and the content of the parameter object, whatever else the
    store holds: two calls with the same name and the same parameters give
    the same result, wherever the parameters lie and whatever calls came
    before.  A call changes no object that existed before it: it leaves the
    parameter objects as they are and only allocates its own set of used
    keys. *)
Theorem route_deterministic f name p h :
  (routeS f name p h).1 = route f name (objAt h p) /\
  objCells (routeS f name p h).2 = objCells h /\
  (exists fresh, setCells (routeS f name p h).2 = (setCells h ++ fresh)%list) /\
  (forall q h', objAt h' q = objAt h p ->
                (routeS f name q h').1 = (routeS f name p h).1) /\
  (forall name' p',
      (routeS f name p (routeS f name' p' h).2).1 = (routeS f name p h).1).
Proof.
  destruct (routeS_run f name p h) as (fresh & Hs & Hr).
  split; [exact Hr|]. split; [rewrite Hs; reflexivity|].
  split; [exists fresh; rewrite Hs; reflexivity|]. split.
  - intros q h' Hq. destruct (routeS_run f name q h') as (_ & _ & Hr').
    rewrite Hr, Hr', Hq. reflexivity.
  - intros name' p'. destruct (routeS_run f name' p' h) as (fresh' & Hs' & _).
    destruct (routeS_run f name p (routeS f name' p' h).2) as (_ & _ & Hr').
    rewrite Hr, Hr', Hs'. reflexivity.
Qed.

(** Two calls in a row on one store, the first of which marks a key used. *)
Example route_twice :
  let h := {| setCells := []; objCells := [objectLiteral [("id", VNum 1); ("q", VNum 2)]] |} in
  (routeS photosRoute "photos.show" 0 h).1 = Ok "/photos/1?q=2" /\
  (routeS photosRoute "photos.show" 0 (routeS photosRoute "photos.show" 0 h).2).1
  = Ok "/photos/1?q=2" /\
  setCells (routeS photosRoute "photos.show" 0 h).2 = [{["id"]} ∪ ∅].
Proof. repeat split; vm_compute; reflexivity. Qed.

Lemma route_deterministic_witness :
  objAt {| setCells := [∅];
           objCells := [noParams; objectLiteral [("id", VNum 1)]] |} 1
  = objAt {| setCells := []; objCells := [objectLiteral [("id", VNum 1)]] |} 0 /\
  (routeS photosRoute "photos.show" 1
     {| setCells := [∅];
        objCells := [noParams; objectLiteral [("id", VNum 1)]] |}).1
  = (routeS photosRoute "photos.show" 0
       {| setCells := []; objCells := [objectLiteral [("id", VNum 1)]] |}).1.
Proof.
  split; [reflexivity|].
  destruct (route_deterministic photosRoute "photos.show" 0
              {| setCells := []; objCells := [objectLiteral [("id", VNum 1)]] |})
    as (_ & _ & _ & Hsame & _).
  apply Hsame. reflexivity.
Defined.
